(** * tempo-scheduler: the recommendation pipeline of [src/index.ts]

    A shallow embedding of [index.ts]: JavaScript values as an inductive
    type, the built-ins the program relies on ([JSON.parse], [yaml], the
    clock, the Google Calendar and Anthropic clients) as a [Platform] class
    and an [Environment] record, and every [async] function as a
    computation in a state-and-exception monad whose state is the trace of
    console output and collaborator calls. *)

From Stdlib Require Import List String Ascii ZArith Bool Arith Lia.
From Stdlib Require Import Floats.
From Stdlib Require Uint63.
Import ListNotations.
Local Open Scope string_scope.

Set Warnings "-register-all,-inexact-float".

(* ===================================================================== *)
(** ** JavaScript values *)
(* ===================================================================== *)

(** The values [index.ts] handles: what [JSON.parse] returns, plus
    [undefined], which property reads produce.  An object is the list of
    its own properties in insertion order, each key once. *)
Inductive value : Type :=
| VUndefined
| VNull
| VBool (b : bool)
| VNum (n : float)
| VStr (s : string)
| VArr (elems : list value)
| VObj (props : list (string * value)).

(** What a [throw] carries.  [Fault] is a rejection coming from an external
    collaborator (HTTP client, file system). *)
Inductive exn : Type :=
| Error (message : string)
| TypeError
| SyntaxError
| Fault (detail : string).

Definition nullish (v : value) : bool :=
  match v with
  | VUndefined | VNull => true
  | _ => false
  end.

(** [ToBoolean]. *)
Definition truthy (v : value) : bool :=
  match v with
  | VUndefined | VNull => false
  | VBool b => b
  | VNum n => negb (PrimFloat.is_zero n || PrimFloat.is_nan n)
  | VStr s => negb (s =? "")
  | VArr _ | VObj _ => true
  end.

Fixpoint lookup (k : string) (props : list (string * value)) : option value :=
  match props with
  | [] => None
  | (k', v) :: rest => if k' =? k then Some v else lookup k rest
  end.

Definition has_key (k : string) (props : list (string * value)) : bool :=
  match lookup k props with Some _ => true | None => false end.

(** [v.k] for a property name [k] that no built-in prototype defines (every
    name [index.ts] reads is such a name): a [TypeError] on [undefined] and
    [null], the own property of an object, [undefined] otherwise. *)
Definition get_prop (v : value) (k : string) : exn + value :=
  match v with
  | VUndefined | VNull => inl TypeError
  | VObj props =>
      inr (match lookup k props with Some x => x | None => VUndefined end)
  | _ => inr VUndefined
  end.

(** [v?.k]. *)
Definition get_opt (v : value) (k : string) : value :=
  match get_prop v k with
  | inl _ => VUndefined
  | inr x => x
  end.

(** [a || b]. *)
Definition js_or (a b : value) : value := if truthy a then a else b.

(** [v === 'literal']. *)
Definition strict_eq_str (v : value) (lit : string) : bool :=
  match v with
  | VStr s => s =? lit
  | _ => false
  end.

(** [Array.isArray]. *)
Definition isArray (v : value) : bool :=
  match v with VArr _ => true | _ => false end.

(** [v[0]]. *)
Definition get_index0 (v : value) : exn + value :=
  match v with
  | VUndefined | VNull => inl TypeError
  | VArr (x :: _) => inr x
  | VStr (String c _) => inr (VStr (String c EmptyString))
  | VObj props =>
      inr (match lookup "0" props with Some x => x | None => VUndefined end)
  | _ => inr VUndefined
  end.

(** Decimal rendering of a length or an index inside a template literal. *)
Fixpoint digits (fuel n : nat) (acc : string) : string :=
  match fuel with
  | O => acc
  | S fuel' =>
      let acc' := String (ascii_of_nat (48 + n mod 10)) acc in
      if Nat.eqb (n / 10) 0 then acc' else digits fuel' (n / 10) acc'
  end.

Definition nat_to_string (n : nat) : string := digits (S n) n "".

(* ===================================================================== *)
(** ** Requests sent to the collaborators *)
(* ===================================================================== *)

(** The [OAuth2Client] of [google-auth-library], as far as [index.ts]
    configures it. *)
Record OAuth2Client : Type := {
  client_id : value;
  client_secret : value;
  redirect_uri : value;
  credentials : value
}.

Definition setCredentials (c : OAuth2Client) (token : value) : OAuth2Client :=
  {| client_id := client_id c;
     client_secret := client_secret c;
     redirect_uri := redirect_uri c;
     credentials := token |}.

(** Parameters of [calendar.events.list]. *)
Record ListParams : Type := {
  list_calendarId : string;
  timeMin : string;
  timeMax : string;
  singleEvents : bool;
  orderBy : string
}.

(** The event resource built for [calendar.events.insert]. *)
Record EventDateTime : Type := {
  dateTime : value;
  timeZone : string
}.

Record PrivateProperties : Type := {
  createdBy : string;
  priority : value;
  timestamp : string
}.

Record CalendarEvent : Type := {
  summary : value;
  description : string;
  start : EventDateTime;
  end_ : EventDateTime;
  extendedProperties_private : PrivateProperties
}.

Record InsertParams : Type := {
  calendarId : string;
  requestBody : CalendarEvent
}.

(** Parameters of [anthropic.messages.create] and the blocks of its reply. *)
Record Message : Type := {
  role : string;
  content : string
}.

Record MessagesRequest : Type := {
  model : string;
  max_tokens : nat;
  messages : list Message;
  temperature : float
}.

Inductive ContentBlock : Type :=
| TextBlock (text : string)
| OtherBlock (type : string).

(* ===================================================================== *)
(** ** The platform: pure library functions *)
(* ===================================================================== *)

(** Library functions whose code is not part of the repository.  They are
    the same in every run. *)
Class Platform : Type := {
  (** what [yaml.parse] returns; [index.ts] never looks inside it *)
  Strategy : Type;
  (** [yaml.parse(text)] *)
  yaml_parse : string -> exn + Strategy;
  (** [yaml.stringify(strategy)] *)
  yaml_stringify : Strategy -> string;
  (** [JSON.parse(text)], [None] for a [SyntaxError] *)
  JSON_parse : string -> option value;
  (** [JSON.stringify(v, null, 2)] spliced into a template literal *)
  JSON_stringify_pretty : value -> string;
  (** [JSON.stringify(v)] *)
  JSON_stringify : value -> string;
  (** [Number.prototype.toString] *)
  Number_toString : float -> string;
  (** [new Date(ms).toISOString()] *)
  toISOString : Z -> string;
  (** [oAuth2Client.generateAuthUrl({access_type: 'offline', scope: [...]})] *)
  generateAuthUrl : OAuth2Client -> string
}.

Section Conversions.

Context {P : Platform}.

(** [ToString], as a template literal applies it; [None] is the [TypeError]
    of an object whose own [toString] property is not callable (no value
    coming from [JSON.parse] is callable). *)
Fixpoint ToString (v : value) : option string :=
  match v with
  | VUndefined => Some "undefined"
  | VNull => Some "null"
  | VBool true => Some "true"
  | VBool false => Some "false"
  | VNum n => Some (Number_toString n)
  | VStr s => Some s
  | VArr elems =>
      let element (x : value) : option string :=
        match x with
        | VUndefined | VNull => Some ""
        | _ => ToString x
        end in
      (fix join (l : list value) : option string :=
         match l with
         | [] => Some ""
         | [x] => element x
         | x :: rest =>
             match element x, join rest with
             | Some s, Some t => Some (s ++ "," ++ t)
             | _, _ => None
             end
         end) elems
  | VObj props =>
      if has_key "toString" props then None else Some "[object Object]"
  end.

End Conversions.

(* ===================================================================== *)
(** ** Observable effects *)
(* ===================================================================== *)

Inductive Level : Type := Log | Warn | Err.

Inductive Arg : Type :=
| AStr (s : string)
| AExn (e : exn).

(** Everything a run does that the outside can see, in the order it happens:
    console output, prompts, file writes and calls to collaborators. *)
Inductive Event : Type :=
| Console (lvl : Level) (args : list Arg)
| Prompt (question : string)
| TokenRequest (client : OAuth2Client) (code : string)
| FileWrite (file : string) (data : string)
| CalendarList (auth : OAuth2Client) (params : ListParams)
| OracleCall (apiKey : string) (request : MessagesRequest)
| CalendarInsert (auth : OAuth2Client) (params : InsertParams).

(** The state a run threads: the events so far and how often the clock has
    been read. *)
Record World : Type := {
  trace : list Event;
  clock_reads : nat
}.

(** What differs from run to run: the clock, the files and variables found
    at start-up, what the operator types, and how each collaborator answers
    a call given everything that happened before it. *)
Record Environment : Type := {
  Date_now : nat -> Z;
  strategy_yaml : option string;
  credentials_json : option string;
  token_json : option string;
  ANTHROPIC_API_KEY : option string;
  authorization_code : string;
  confirmation_answer : string;
  getToken : list Event -> OAuth2Client -> string -> exn + value;
  writeFileSync : list Event -> string -> string -> option exn;
  events_list : list Event -> OAuth2Client -> ListParams -> exn + option (list value);
  events_insert : list Event -> OAuth2Client -> InsertParams -> option exn;
  messages_create : list Event -> string -> MessagesRequest -> exn + list ContentBlock
}.

(** Computations that may throw and that extend the world. *)
Definition M (A : Type) : Type := World -> (exn + A) * World.

Definition ret {A : Type} (a : A) : M A := fun w => (inr a, w).

Definition throw {A : Type} (e : exn) : M A := fun w => (inl e, w).

Definition bind {A B : Type} (m : M A) (k : A -> M B) : M B :=
  fun w =>
    match m w with
    | (inl e, w') => (inl e, w')
    | (inr a, w') => k a w'
    end.

Definition try_catch {A : Type} (body : M A) (handler : exn -> M A) : M A :=
  fun w =>
    match body w with
    | (inl e, w') => handler e w'
    | (inr a, w') => (inr a, w')
    end.

Definition lift {A : Type} (r : exn + A) : M A := fun w => (r, w).

Declare Scope js_scope.
Delimit Scope js_scope with js.
Notation "x <- m ;; k" := (bind m (fun x => k))
  (at level 61, m at next level, right associativity) : js_scope.
Notation "m ;;; k" := (bind m (fun _ => k))
  (at level 61, right associativity) : js_scope.

Definition record (e : Event) (w : World) : World :=
  {| trace := trace w ++ [e]; clock_reads := clock_reads w |}.

Definition emit (e : Event) : M unit := fun w => (inr tt, record e w).

Definition console_log (s : string) : M unit := emit (Console Log [AStr s]).
Definition console_warn (s : string) : M unit := emit (Console Warn [AStr s]).

(** [for (const x of xs) body(x)]: a throw leaves the loop. *)
Fixpoint for_of {A : Type} (xs : list A) (body : A -> M unit) : M unit :=
  match xs with
  | [] => ret tt
  | x :: rest => bind (body x) (fun _ => for_of rest body)
  end.

(** [xs.map(f)] where the callback may throw. *)
Fixpoint map_throwing {A B : Type} (f : A -> exn + B) (xs : list A) : exn + list B :=
  match xs with
  | [] => inr []
  | x :: rest =>
      match f x with
      | inl e => inl e
      | inr y =>
          match map_throwing f rest with
          | inl e => inl e
          | inr ys => inr (y :: ys)
          end
      end
  end.

Definition dq : string := String (ascii_of_nat 34) EmptyString.
Definition nl : string := String (ascii_of_nat 10) EmptyString.

(** The mark index.ts prints before [Created:], byte for byte. *)
Definition created_mark : string :=
  String (ascii_of_nat 195) (String (ascii_of_nat 162)
  (String (ascii_of_nat 197) (String (ascii_of_nat 147)
  (String (ascii_of_nat 226) (String (ascii_of_nat 128)
  (String (ascii_of_nat 156) EmptyString)))))).

(** The fixed text of the prompt, between its three interpolations. *)
Definition context_intro : string :=
  "
You are a scheduling assistant responsible for maintaining my calendar according to my strategy. Your primary tasks are:
1. Generate calendar events for ALL recurring activities
2. Handle any adhoc requests
3. Optimize existing calendar events

The current time:
".

Definition context_strategy_heading : string :=
  "

My scheduling strategy:
".

Definition context_events_heading : string :=
  "

My current calendar events for the next 7 days:
".

Definition context_instructions : string :=
  "

IMPORTANT INSTRUCTIONS:
1. For EACH recurring event in the strategy:
   - Create a separate recommendation
   - Schedule it for the next appropriate time slot
   - Follow user rules about timing (e.g., work hours, day start/end times)
   - Consider frequency specified (daily, weekly, etc.)
   - Account for existing calendar events to avoid conflicts

2. For EACH adhoc request:
   - Create a recommendation that fits within the specified timeframe
   - Follow prioritization rules from the strategy

3. Generate recommendations for AT LEAST:
   - All daily recurring events for the next 7 days
   - All weekly recurring events for next occurrence
   - All adhoc requests within their specified timeframes

Format your response as a JSON array of recommendations with this structure:
{
  " ++ dq ++ "recommendations" ++ dq ++ ": [
    {
      " ++ dq ++ "priority" ++ dq ++ ": " ++ dq ++ "HIGH" ++ dq ++ " | " ++ dq ++ "MEDIUM" ++ dq ++ " | " ++ dq ++ "LOW" ++ dq ++ ",
      " ++ dq ++ "recommendation" ++ dq ++ ": " ++ dq ++ "Human readable description of what should be done" ++ dq ++ ",
      " ++ dq ++ "reason" ++ dq ++ ": " ++ dq ++ "Clear explanation of why this scheduling choice was made" ++ dq ++ ",
      " ++ dq ++ "calendarAction" ++ dq ++ ": {
        " ++ dq ++ "type" ++ dq ++ ": " ++ dq ++ "CREATE" ++ dq ++ " | " ++ dq ++ "MOVE" ++ dq ++ " | " ++ dq ++ "DELETE" ++ dq ++ ",
        " ++ dq ++ "details" ++ dq ++ ": {
          " ++ dq ++ "title" ++ dq ++ ": " ++ dq ++ "string" ++ dq ++ ",
          " ++ dq ++ "description" ++ dq ++ ": " ++ dq ++ "string" ++ dq ++ ",
          " ++ dq ++ "startTime" ++ dq ++ ": " ++ dq ++ "ISO datetime" ++ dq ++ ",
          " ++ dq ++ "endTime" ++ dq ++ ": " ++ dq ++ "ISO datetime" ++ dq ++ "
        }
      }
    }
  ]
}

CRITICAL: Ensure you create recommendations for EVERY recurring event and adhoc request, even if you have to make reasonable assumptions about timing and duration. If a recurring event is specified as daily, create 7 instances for the next 7 days.".

(* ===================================================================== *)
(** ** The program *)
(* ===================================================================== *)

(** The declared parameter type of [executeCalendarActions].  TypeScript
    does not check the elements at run time, so they stay raw values. *)
Record SchedulingSuggestions : Type := {
  recommendations : list value
}.

Section Program.

Context {P : Platform}.
Variable E : Environment.

Local Open Scope js_scope.

(** [Date.now()] and [new Date()]: the next reading of the clock. *)
Definition now : M Z :=
  fun w =>
    (inr (Date_now E (clock_reads w)),
     {| trace := trace w; clock_reads := S (clock_reads w) |}).

(** [`${v}`]. *)
Definition to_string (v : value) : M string :=
  lift (match ToString v with Some s => inr s | None => inl TypeError end).

Definition prop (v : value) (k : string) : M value := lift (get_prop v k).

(** [fs.readFileSync(path, 'utf8')] on a file that may be absent. *)
Definition readFileSync (file : option string) : M string :=
  match file with
  | Some text => ret text
  | None => throw (Fault "ENOENT")
  end.

Definition parse_json (text : string) : M value :=
  match JSON_parse text with
  | Some v => ret v
  | None => throw SyntaxError
  end.

(** [rl.question(q, resolve)]. *)
Definition question (q answer : string) : M string :=
  emit (Prompt q) ;;; ret answer.

(** Calls to the collaborators: the call is recorded, the environment
    answers from the history before it. *)
Definition call_getToken (client : OAuth2Client) (code : string) : M value :=
  fun w => (getToken E (trace w) client code, record (TokenRequest client code) w).

Definition call_writeFileSync (file data : string) : M unit :=
  fun w =>
    (match writeFileSync E (trace w) file data with
     | Some e => inl e
     | None => inr tt
     end, record (FileWrite file data) w).

Definition call_events_list (auth : OAuth2Client) (params : ListParams)
  : M (option (list value)) :=
  fun w => (events_list E (trace w) auth params, record (CalendarList auth params) w).

Definition call_events_insert (auth : OAuth2Client) (params : InsertParams) : M unit :=
  fun w =>
    (match events_insert E (trace w) auth params with
     | Some e => inl e
     | None => inr tt
     end, record (CalendarInsert auth params) w).

Definition call_messages_create (apiKey : string) (request : MessagesRequest)
  : M (list ContentBlock) :=
  fun w => (messages_create E (trace w) apiKey request, record (OracleCall apiKey request) w).

(** [getAuthenticatedClient], index.ts lines 13-63. *)
Definition getAuthenticatedClient : M OAuth2Client :=
  match credentials_json E with
  | None => throw (Error "credentials.json not found in project root")
  | Some credText =>
      credentials <- parse_json credText ;;
      installed <- prop credentials "installed" ;;
      id <- prop installed "client_id" ;;
      secret <- prop installed "client_secret" ;;
      redirect_uris <- prop installed "redirect_uris" ;;
      uri <- lift (get_index0 redirect_uris) ;;
      let oAuth2Client :=
        {| client_id := id; client_secret := secret;
           redirect_uri := uri; credentials := VObj [] |} in
      match token_json E with
      | Some tokenText =>
          token <- parse_json tokenText ;;
          ret (setCredentials oAuth2Client token)
      | None =>
          let authUrl := generateAuthUrl oAuth2Client in
          emit (Console Log [AStr "Authorize this app by visiting this url:"; AStr authUrl]) ;;;
          code <- question "Enter the code from that page here: " (authorization_code E) ;;
          tokens <- call_getToken oAuth2Client code ;;
          call_writeFileSync "token.json" (JSON_stringify tokens) ;;;
          ret (setCredentials oAuth2Client tokens)
      end
  end.

Definition days (n : Z) : Z := (n * 24 * 60 * 60 * 1000)%Z.

(** [getCalendarEvents], index.ts lines 65-82. *)
Definition getCalendarEvents (auth : OAuth2Client) : M (option (list value)) :=
  try_catch
    (t0 <- now ;;
     t1 <- now ;;
     call_events_list auth
       {| list_calendarId := "primary";
          timeMin := toISOString (t0 - days 30);
          timeMax := toISOString (t1 + days 7);
          singleEvents := true;
          orderBy := "startTime" |})
    (fun error =>
       emit (Console Err [AStr "Error fetching calendar events:"; AExn error]) ;;;
       throw error).

(** The callback of [events.map] at lines 97-101. *)
Definition formatEvent (event : value) : exn + value :=
  match get_prop event "summary" with
  | inl e => inl e
  | inr summary0 =>
      (* [event] is not nullish here, so [event.start] cannot throw *)
      let start0 := get_opt event "start" in
      let end0 := get_opt event "end" in
      inr (VObj [("summary", summary0);
                 ("start", js_or (get_opt start0 "dateTime") (get_opt start0 "date"));
                 ("end", js_or (get_opt end0 "dateTime") (get_opt end0 "date"))])
  end.

(** The template literal at lines 103-155. *)
Definition context (strategy : Strategy) (formattedEvents : list value)
    (currentTime : string) : string :=
  context_intro ++ currentTime
  ++ context_strategy_heading ++ yaml_stringify strategy
  ++ context_events_heading ++ JSON_stringify_pretty (VArr formattedEvents)
  ++ context_instructions.

(** The argument of [anthropic.messages.create], lines 159-170. *)
Definition oracleRequest (ctx : string) : MessagesRequest :=
  {| model := "claude-3-sonnet-20240229";
     max_tokens := 4096;
     messages := [ {| role := "user"; content := ctx |};
                   {| role := "assistant"; content := "{" |} ];
     temperature := 0.8%float |}.

(** The inner [try] of [getSchedulingSuggestions], lines 176-188: decode
    and check the oracle's text. *)
Definition parseSuggestions (text : string) : M value :=
  try_catch
    (suggestions <- parse_json ("{" ++ text) ;;
     recs <- prop suggestions "recommendations" ;;
     if negb (truthy recs) || negb (isArray recs)
     then throw (Error "Invalid response structure")
     else ret suggestions)
    (fun parseError =>
       emit (Console Err [AStr "Failed to parse Claude response:"; AExn parseError]) ;;;
       emit (Console Log [AStr "Raw response:"; AStr text]) ;;;
       throw (Error "Failed to parse scheduling suggestions")).

(** Lines 97-156 of [getSchedulingSuggestions]: format the events, read the
    clock, fill the template and echo it. *)
Definition buildRequest (strategy : Strategy) (events : list value) : M string :=
  formattedEvents <- lift (map_throwing formatEvent events) ;;
  t <- now ;;
  let ctx := context strategy formattedEvents (toISOString t) in
  console_log ctx ;;;
  ret ctx.

(** The outer [try] of [getSchedulingSuggestions], lines 158-192: one call
    to the oracle, then the decoding of its first content block. *)
Definition askOracle (key ctx : string) : M value :=
  try_catch
    (response <- call_messages_create key (oracleRequest ctx) ;;
     match response with
     | [] => throw TypeError
     | OtherBlock _ :: _ => throw (Error "Response type is not text")
     | TextBlock text :: _ => parseSuggestions text
     end)
    (fun error =>
       emit (Console Err [AStr "Error getting suggestions from Claude:"; AExn error]) ;;;
       throw error).

(** [getSchedulingSuggestions], index.ts lines 84-193. *)
Definition getSchedulingSuggestions (strategy : Strategy) (events : list value)
    (anthropicKey : option string) : M value :=
  match anthropicKey with
  | None => throw (Error "ANTHROPIC_API_KEY not found in environment variables")
  | Some key =>
      if key =? ""
      then throw (Error "ANTHROPIC_API_KEY not found in environment variables")
      else
        ctx <- buildRequest strategy events ;;
        askOracle key ctx
  end.

(** [calendarAction.details.k]. *)
Definition details_field (calendarAction : value) (k : string) : M value :=
  details <- prop calendarAction "details" ;;
  prop details k.

(** The body of [case 'CREATE'], lines 228-259. *)
Definition createEvent (auth : OAuth2Client) (recommendation calendarAction : value)
  : M unit :=
  title <- details_field calendarAction "title" ;;
  shown <- to_string title ;;
  console_log ("Creating event: " ++ shown) ;;;
  summary0 <- details_field calendarAction "title" ;;
  description0 <- details_field calendarAction "description" ;;
  description1 <- to_string description0 ;;
  startTime <- details_field calendarAction "startTime" ;;
  endTime <- details_field calendarAction "endTime" ;;
  priority0 <- prop recommendation "priority" ;;
  t <- now ;;
  let event :=
    {| summary := summary0;
       description := description1;
       start := {| dateTime := startTime; timeZone := "America/Los_Angeles" |};
       end_ := {| dateTime := endTime; timeZone := "America/Los_Angeles" |};
       extendedProperties_private :=
         {| createdBy := "time-management-system";
            priority := priority0;
            timestamp := toISOString t |} |} in
  call_events_insert auth {| calendarId := "primary"; requestBody := event |} ;;;
  title' <- details_field calendarAction "title" ;;
  shown' <- to_string title' ;;
  console_log (created_mark ++ " Created: " ++ shown').

(** The [switch] inside the [try], lines 225-275. *)
Definition dispatchAction (auth : OAuth2Client) (recommendation : value) : M unit :=
  calendarAction <- prop recommendation "calendarAction" ;;
  type <- prop calendarAction "type" ;;
  if strict_eq_str type "CREATE" then
    createEvent auth recommendation calendarAction
  else if strict_eq_str type "MOVE" then
    console_log "Move event functionality not implemented yet"
  else if strict_eq_str type "DELETE" then
    console_log "Delete event functionality not implemented yet"
  else
    shown <- to_string type ;;
    console_warn ("Unknown action type: " ++ shown).

(** The [catch] at lines 276-279. *)
Definition reportFailure (recommendation : value) (error : exn) : M unit :=
  title <- prop recommendation "title" ;;
  shown <- to_string title ;;
  emit (Console Err [AStr ("Failed to process recommendation: " ++ shown); AExn error]).

(** One iteration of the loop at lines 223-280. *)
Definition processRecommendation (auth : OAuth2Client) (recommendation : value) : M unit :=
  try_catch (dispatchAction auth recommendation) (reportFailure recommendation).

(** [executeCalendarActions], index.ts lines 215-281. *)
Definition executeCalendarActions (auth : OAuth2Client)
    (suggestions : SchedulingSuggestions) : M unit :=
  console_log ("Processing " ++ nat_to_string (List.length (recommendations suggestions))
               ++ " calendar actions...") ;;;
  for_of (recommendations suggestions) (processRecommendation auth).

(** [suggestions.recommendations] used as an array. *)
Definition recommendations_of (suggestions : value) : M (list value) :=
  recs <- prop suggestions "recommendations" ;;
  match recs with
  | VArr l => ret l
  | _ => throw TypeError
  end.

(** [recs.forEach((rec, index) => console.log(...))], lines 306-308. *)
Fixpoint printRecommendations (index : nat) (recs : list value) : M unit :=
  match recs with
  | [] => ret tt
  | rec :: rest =>
      console_log ("Recommendation " ++ nat_to_string (index + 1) ++ ": "
                   ++ JSON_stringify_pretty rec) ;;;
      printRecommendations (S index) rest
  end.

(** [answer.toLowerCase() === 'y']. *)
Definition is_yes (answer : string) : bool := (answer =? "y") || (answer =? "Y").

(** The [try] block of [main], lines 285-329. *)
Definition mainBody : M unit :=
  console_log "Starting time management system..." ;;;
  strategyText <- readFileSync (strategy_yaml E) ;;
  strategy <- lift (yaml_parse strategyText) ;;
  console_log "Strategy loaded" ;;;
  auth <- getAuthenticatedClient ;;
  events <- getCalendarEvents auth ;;
  console_log ("Found "
               ++ nat_to_string (match events with Some l => List.length l | None => 0 end)
               ++ " events from the past 30 days to the next 7 days") ;;;
  console_log (nl ++ "Getting scheduling suggestions...") ;;;
  suggestions <- getSchedulingSuggestions strategy
                   (match events with Some l => l | None => [] end)
                   (ANTHROPIC_API_KEY E) ;;
  console_log (nl ++ "Scheduling Suggestions:") ;;;
  recs <- recommendations_of suggestions ;;
  printRecommendations 0 recs ;;;
  answer <- question (nl ++ "Do you want to execute these calendar actions? (y/n) ")
              (confirmation_answer E) ;;
  if is_yes answer then
    console_log (nl ++ "Executing calendar actions...") ;;;
    executeCalendarActions auth {| recommendations := recs |} ;;;
    console_log "Calendar updates complete!"
  else
    console_log "Calendar actions cancelled.".

(** [main], index.ts lines 283-333. *)
Definition main : M unit :=
  try_catch mainBody
    (fun error => emit (Console Err [AStr "Error:"; AExn error])).

End Program.

(* ===================================================================== *)
(** ** A reference platform *)
(* ===================================================================== *)

(** A small host on which the program can be evaluated: a JSON reader and
    writer for documents whose numbers are integer literals below 2^53 and
    whose strings use no [\u] escape, and a YAML library that keeps the
    policy as its text.  General theorems quantify over every [Platform];
    this one instantiates them. *)
Module Reference.

Local Open Scope char_scope.

Definition is_ws (c : ascii) : bool :=
  match c with
  | " " | "009" | "010" | "013" => true
  | _ => false
  end.

Definition is_digit (c : ascii) : bool :=
  let n := nat_of_ascii c in (48 <=? n)%nat && (n <=? 57)%nat.

Fixpoint skip_ws (s : string) : string :=
  match s with
  | String c rest => if is_ws c then skip_ws rest else s
  | EmptyString => s
  end.

(** The characters of a string literal after its opening quote. *)
Fixpoint read_string (s : string) : option (string * string) :=
  match s with
  | EmptyString => None
  | String c rest =>
      if Ascii.eqb c (ascii_of_nat 34) then Some (EmptyString, rest)
      else if Ascii.eqb c "\" then
        match rest with
        | String e rest' =>
            let unescaped :=
              if Ascii.eqb e (ascii_of_nat 34) then Some (ascii_of_nat 34)
              else match e with
                   | "\" => Some "\"
                   | "/" => Some "/"
                   | "b" => Some "008"
                   | "f" => Some "012"
                   | "n" => Some "010"
                   | "r" => Some "013"
                   | "t" => Some "009"
                   | _ => None
                   end in
            match unescaped, read_string rest' with
            | Some u, Some (body, after) => Some (String u body, after)
            | _, _ => None
            end
        | EmptyString => None
        end
      else if (nat_of_ascii c <? 32)%nat then None
      else
        match read_string rest with
        | Some (body, after) => Some (String c body, after)
        | None => None
        end
  end.

Fixpoint read_digits (s : string) (acc : Z) : Z * string :=
  match s with
  | String c rest =>
      if is_digit c
      then read_digits rest (10 * acc + Z.of_nat (nat_of_ascii c - 48))%Z
      else (acc, s)
  | EmptyString => (acc, s)
  end.

Definition float_of_Z (z : Z) : float :=
  if (z <? 0)%Z
  then PrimFloat.opp (PrimFloat.of_uint63 (Uint63.of_Z (- z)))
  else PrimFloat.of_uint63 (Uint63.of_Z z).

(** An integer literal: [0] or a digit string without leading zero, then no
    fraction and no exponent. *)
Definition read_integer (negative : bool) (s : string) : option (value * string) :=
  match s with
  | String c rest =>
      if is_digit c then
        let '(n, after) := read_digits s 0%Z in
        let leading_zero := Ascii.eqb c "0" &&
          match rest with String d _ => is_digit d | EmptyString => false end in
        let continues :=
          match after with
          | String "." _ | String "e" _ | String "E" _ => true
          | _ => false
          end in
        if leading_zero || continues || (2 ^ 53 <=? n)%Z then None
        else Some (VNum (float_of_Z (if negative then (- n)%Z else n)), after)
      else None
  | EmptyString => None
  end.

Fixpoint strip_prefix (lit s : string) : option string :=
  match lit, s with
  | EmptyString, _ => Some s
  | String a lit', String b s' => if Ascii.eqb a b then strip_prefix lit' s' else None
  | String _ _, EmptyString => None
  end.

(** [o[k] = v] on the property list: an existing key keeps its place. *)
Fixpoint set_prop (k : string) (v : value) (props : list (string * value))
  : list (string * value) :=
  match props with
  | [] => [(k, v)]
  | (k', v') :: rest =>
      if String.eqb k' k then (k, v) :: rest else (k', v') :: set_prop k v rest
  end.

Fixpoint read_value (fuel : nat) (s : string) {struct fuel} : option (value * string) :=
  match fuel with
  | O => None
  | S fuel' =>
      match skip_ws s with
      | String "{" rest =>
          match skip_ws rest with
          | String "}" after => Some (VObj [], after)
          | members => read_members fuel' members []
          end
      | String "[" rest =>
          match skip_ws rest with
          | String "]" after => Some (VArr [], after)
          | elements => read_elements fuel' elements []
          end
      | String "-" rest => read_integer true rest
      | String c rest as s' =>
          if Ascii.eqb c (ascii_of_nat 34) then
            match read_string rest with
            | Some (body, after) => Some (VStr body, after)
            | None => None
            end
          else if is_digit c then read_integer false s'
          else
            match strip_prefix "true" s', strip_prefix "false" s', strip_prefix "null" s' with
            | Some after, _, _ => Some (VBool true, after)
            | _, Some after, _ => Some (VBool false, after)
            | _, _, Some after => Some (VNull, after)
            | _, _, _ => None
            end
      | EmptyString => None
      end
  end

with read_elements (fuel : nat) (s : string) (acc : list value) {struct fuel}
  : option (value * string) :=
  match fuel with
  | O => None
  | S fuel' =>
      match read_value fuel' s with
      | Some (v, after) =>
          match skip_ws after with
          | String "," rest => read_elements fuel' rest (acc ++ [v])
          | String "]" rest => Some (VArr (acc ++ [v]), rest)
          | _ => None
          end
      | None => None
      end
  end

with read_members (fuel : nat) (s : string) (acc : list (string * value)) {struct fuel}
  : option (value * string) :=
  match fuel with
  | O => None
  | S fuel' =>
      match skip_ws s with
      | String q rest =>
          if Ascii.eqb q (ascii_of_nat 34) then
            match read_string rest with
            | Some (key, after_key) =>
                match skip_ws after_key with
                | String ":" after_colon =>
                    match read_value fuel' after_colon with
                    | Some (v, after) =>
                        match skip_ws after with
                        | String "," rest' => read_members fuel' rest' (set_prop key v acc)
                        | String "}" rest' => Some (VObj (set_prop key v acc), rest')
                        | _ => None
                        end
                    | None => None
                    end
                | _ => None
                end
            | None => None
            end
          else None
      | EmptyString => None
      end
  end.

Definition parse (text : string) : option value :=
  match read_value (2 * String.length text + 2) text with
  | Some (v, after) =>
      match skip_ws after with
      | EmptyString => Some v
      | _ => None
      end
  | None => None
  end.

Local Close Scope char_scope.

(** Decimal digits of a non-negative integer. *)
Fixpoint Zdigits (fuel : nat) (z : Z) (acc : string) : string :=
  match fuel with
  | O => acc
  | S fuel' =>
      let acc' := String (ascii_of_nat (48 + Z.to_nat (z mod 10))) acc in
      if (z / 10 =? 0)%Z then acc' else Zdigits fuel' (z / 10)%Z acc'
  end.

Definition Z_to_string (z : Z) : string :=
  if (z <? 0)%Z then "-" ++ Zdigits 40 (- z) "" else Zdigits 40 z "".

Fixpoint zeros (n : nat) : string :=
  match n with
  | O => ""
  | S n' => "0" ++ zeros n'
  end.

Definition pad (width : nat) (s : string) : string :=
  zeros (width - String.length s) ++ s.

Definition integer_of_float (f : float) : option Z :=
  match Prim2SF f with
  | S754_zero _ => Some 0%Z
  | S754_finite negative m e =>
      let magnitude :=
        if (0 <=? e)%Z then Some (Z.pos m * 2 ^ e)%Z
        else if (Z.pos m mod 2 ^ (- e) =? 0)%Z then Some (Z.pos m / 2 ^ (- e))%Z
        else None in
      match magnitude with
      | Some z => Some (if negative then (- z)%Z else z)
      | None => None
      end
  | _ => None
  end.

(** Exact on the integers the reader produces. *)
Definition number_text (f : float) : string :=
  match integer_of_float f with
  | Some z => Z_to_string z
  | None => "NaN"
  end.

Definition hex_digit (n : nat) : ascii :=
  ascii_of_nat (if (n <? 10)%nat then 48 + n else 87 + n).

Fixpoint escape (s : string) : string :=
  match s with
  | EmptyString => EmptyString
  | String c rest =>
      let n := nat_of_ascii c in
      (if (n =? 34)%nat then "\" ++ dq
       else if (n =? 92)%nat then "\\"
       else if (n =? 8)%nat then "\b"
       else if (n =? 12)%nat then "\f"
       else if (n =? 10)%nat then "\n"
       else if (n =? 13)%nat then "\r"
       else if (n =? 9)%nat then "\t"
       else if (n <? 32)%nat
            then "\u00" ++ String (hex_digit (n / 16)) (String (hex_digit (n mod 16)) "")
       else String c "") ++ escape rest
  end.

Definition quote (s : string) : string := dq ++ escape s ++ dq.

(** [JSON.stringify(v, null, gap)]; [None] is [undefined]. *)
Fixpoint write (gap indent : string) (v : value) {struct v} : option string :=
  let inner := indent ++ gap in
  let separator := if gap =? "" then "," else "," ++ nl ++ inner in
  let colon := if gap =? "" then ":" else ": " in
  let wrap (opening closing body : string) :=
    if gap =? "" then opening ++ body ++ closing
    else opening ++ nl ++ inner ++ body ++ nl ++ indent ++ closing in
  match v with
  | VUndefined => None
  | VNull => Some "null"
  | VBool true => Some "true"
  | VBool false => Some "false"
  | VNum n => Some (if PrimFloat.is_finite n then number_text n else "null")
  | VStr s => Some (quote s)
  | VArr elems =>
      let items :=
        (fix go (l : list value) : list string :=
           match l with
           | [] => []
           | x :: rest =>
               match write gap inner x with
               | Some t => t :: go rest
               | None => "null" :: go rest
               end
           end) elems in
      match items with
      | [] => Some "[]"
      | _ => Some (wrap "[" "]" (String.concat separator items))
      end
  | VObj props =>
      let members :=
        (fix go (l : list (string * value)) : list string :=
           match l with
           | [] => []
           | (k, x) :: rest =>
               match write gap inner x with
               | Some t => (quote k ++ colon ++ t) :: go rest
               | None => go rest
               end
           end) props in
      match members with
      | [] => Some "{}"
      | _ => Some (wrap "{" "}" (String.concat separator members))
      end
  end.

Definition stringify (gap : string) (v : value) : string :=
  match write gap "" v with
  | Some t => t
  | None => "undefined"
  end.

(** [new Date(ms).toISOString()] for years 0000 to 9999. *)
Definition iso (ms : Z) : string :=
  let day := (ms / 86400000)%Z in
  let rest := (ms mod 86400000)%Z in
  let z := (day + 719468)%Z in
  let era := (z / 146097)%Z in
  let doe := (z - era * 146097)%Z in
  let yoe := ((doe - doe / 1460 + doe / 36524 - doe / 146096) / 365)%Z in
  let doy := (doe - (365 * yoe + yoe / 4 - yoe / 100))%Z in
  let mp := ((5 * doy + 2) / 153)%Z in
  let d := (doy - (153 * mp + 2) / 5 + 1)%Z in
  let m := (if (mp <? 10)%Z then mp + 3 else mp - 9)%Z in
  let y := (yoe + era * 400 + (if (m <=? 2)%Z then 1 else 0))%Z in
  pad 4 (Z_to_string y) ++ "-" ++ pad 2 (Z_to_string m) ++ "-" ++ pad 2 (Z_to_string d)
  ++ "T" ++ pad 2 (Z_to_string (rest / 3600000))
  ++ ":" ++ pad 2 (Z_to_string (rest / 60000 mod 60))
  ++ ":" ++ pad 2 (Z_to_string (rest / 1000 mod 60))
  ++ "." ++ pad 3 (Z_to_string (rest mod 1000)) ++ "Z".

Definition auth_url (c : OAuth2Client) : string :=
  "https://accounts.google.com/o/oauth2/v2/auth?access_type=offline&client_id="
  ++ match client_id c with VStr s => s | _ => "" end.

#[export] Instance platform : Platform := {
  Strategy := string;
  yaml_parse := fun text => inr text;
  yaml_stringify := fun text => text;
  JSON_parse := parse;
  JSON_stringify_pretty := stringify "  ";
  JSON_stringify := stringify "";
  Number_toString := number_text;
  toISOString := iso;
  generateAuthUrl := auth_url
}.

End Reference.

(* ===================================================================== *)
(** ** The declared shape of a recommendation *)
(* ===================================================================== *)

(** [interface CalendarRecommendation], index.ts lines 195-209, and the
    object a value of that type is at run time. *)
Inductive Priority : Type := HIGH | MEDIUM | LOW.

Inductive ActionType : Type := CREATE | MOVE | DELETE.

Record Details : Type := {
  d_title : string;
  d_description : string;
  d_startTime : string;
  d_endTime : string
}.

Record CalendarAction : Type := {
  action_type : ActionType;
  action_details : Details
}.

Record CalendarRecommendation : Type := {
  rec_priority : Priority;
  rec_title : string;
  rec_recommendation : string;
  rec_reason : string;
  rec_calendarAction : CalendarAction
}.

Definition priority_text (p : Priority) : string :=
  match p with HIGH => "HIGH" | MEDIUM => "MEDIUM" | LOW => "LOW" end.

Definition type_text (t : ActionType) : string :=
  match t with CREATE => "CREATE" | MOVE => "MOVE" | DELETE => "DELETE" end.

Definition details_value (d : Details) : value :=
  VObj [("title", VStr (d_title d));
        ("description", VStr (d_description d));
        ("startTime", VStr (d_startTime d));
        ("endTime", VStr (d_endTime d))].

Definition to_value (r : CalendarRecommendation) : value :=
  VObj [("priority", VStr (priority_text (rec_priority r)));
        ("title", VStr (rec_title r));
        ("recommendation", VStr (rec_recommendation r));
        ("reason", VStr (rec_reason r));
        ("calendarAction",
         VObj [("type", VStr (type_text (action_type (rec_calendarAction r))));
               ("details", details_value (action_details (rec_calendarAction r)))])].

(* ===================================================================== *)
(** ** Reading the specification's vocabulary off a run *)
(* ===================================================================== *)

(** The specification's [ActionOutcome].  [executeCalendarActions] builds no
    such value: what it leaves behind for each recommendation is the console
    line its iteration ends with, and [outcome_of] reads the outcome from
    that line. *)
Inductive ActionOutcome : Type :=
| Applied
| Skipped (reason : string)
| Failed (reason : exn).

Fixpoint starts_with (lit s : string) : bool :=
  match lit, s with
  | EmptyString, _ => true
  | String a lit', String b s' => Ascii.eqb a b && starts_with lit' s'
  | String _ _, EmptyString => false
  end.

Definition outcome_of (e : Event) : option ActionOutcome :=
  match e with
  | Console Log [AStr s] =>
      if starts_with (created_mark ++ " Created: ") s then Some Applied
      else if s =? "Move event functionality not implemented yet"
      then Some (Skipped "not supported")
      else if s =? "Delete event functionality not implemented yet"
      then Some (Skipped "not supported")
      else None
  | Console Warn [AStr s] =>
      if starts_with "Unknown action type: " s
      then Some (Skipped "unknown action type") else None
  | Console Err [AStr s; AExn error] =>
      if starts_with "Failed to process recommendation: " s
      then Some (Failed error) else None
  | _ => None
  end.

Fixpoint outcomes (events : list Event) : list ActionOutcome :=
  match events with
  | [] => []
  | e :: rest =>
      match outcome_of e with
      | Some o => o :: outcomes rest
      | None => outcomes rest
      end
  end.

(** The specification's [MalformedOutput]. *)
Definition MalformedOutput : exn := Error "Failed to parse scheduling suggestions".

(** The recommendations sequence of a decoded reply, when it has one. *)
Definition recommendations_field (v : value) : option (list value) :=
  match get_prop v "recommendations" with
  | inr (VArr l) => Some l
  | _ => None
  end.

(** Calls that leave the process. *)
Definition is_calendar_read (e : Event) : bool :=
  match e with CalendarList _ _ => true | _ => false end.

Definition is_oracle_call (e : Event) : bool :=
  match e with OracleCall _ _ => true | _ => false end.

Definition is_calendar_write (e : Event) : bool :=
  match e with CalendarInsert _ _ => true | _ => false end.

Definition is_external_call (e : Event) : bool :=
  match e with
  | CalendarList _ _ | OracleCall _ _ | CalendarInsert _ _ | TokenRequest _ _ => true
  | _ => false
  end.

(** The events of [w'] that [w] does not have yet. *)
Definition events_since (w w' : World) : list Event :=
  skipn (List.length (trace w)) (trace w').

Definition start_of_run : World := {| trace := []; clock_reads := 0 |}.

(** What the [catch] at lines 184-188 does with the cause it caught. *)
Definition parse_failure (text : string) (cause : exn) (w : World) : World :=
  record (Console Log [AStr "Raw response:"; AStr text])
    (record (Console Err [AStr "Failed to parse Claude response:"; AExn cause]) w).

(** The line [case 'MOVE'] and [case 'DELETE'] print. *)
Definition not_implemented_line (type : string) : string :=
  if type =? "MOVE" then "Move event functionality not implemented yet"
  else "Delete event functionality not implemented yet".

(** Not a call to the oracle. *)
Definition quiet (e : Event) : Prop := is_oracle_call e = false.

(** [!anthropicKey]. *)
Definition key_missing (key : option string) : bool :=
  match key with
  | None => true
  | Some k => k =? ""
  end.

Definition no_oracle_no_write (e : Event) : Prop :=
  is_oracle_call e = false /\ is_calendar_write e = false.

Definition no_external_call (e : Event) : Prop := is_external_call e = false.

(** [m] never returns normally. *)
Definition always_throws {A : Type} (m : M A) : Prop :=
  forall w, exists e, fst (m w) = inl e.

(** The time zone index.ts writes into every event it creates. *)
Definition fixed_time_zone (e : Event) : Prop :=
  match e with
  | CalendarInsert _ p =>
      timeZone (start (requestBody p)) = "America/Los_Angeles"
      /\ timeZone (end_ (requestBody p)) = "America/Los_Angeles"
  | _ => True
  end.

(** An event that is no outcome line. *)
Definition no_outcome (e : Event) : Prop := outcome_of e = None.

(** [m] prints one outcome line when it returns and none when it throws. *)
Definition ends_with_outcome (m : M unit) : Prop :=
  forall w, exists evs,
    trace (snd (m w)) = (trace w ++ evs)%list
    /\ match fst (m w) with
       | inr _ => exists o, outcomes evs = [o]
       | inl _ => outcomes evs = []
       end.

(** [m] only adds events that satisfy [Q], whatever world it starts in and
    however it ends. *)
Definition only_emits {A : Type} (Q : Event -> Prop) (m : M A) : Prop :=
  forall w, exists evs, trace (snd (m w)) = (trace w ++ evs)%list /\ Forall Q evs.


(** The object that the callback of [events.map] builds for an event that
    is neither [null] nor [undefined]. *)
Definition formatted (event : value) : value :=
  VObj [("summary", get_opt event "summary");
        ("start", js_or (get_opt (get_opt event "start") "dateTime")
                        (get_opt (get_opt event "start") "date"));
        ("end", js_or (get_opt (get_opt event "end") "dateTime")
                      (get_opt (get_opt event "end") "date"))].

(** The kinds of event each stage of the run can add. *)
Definition console_only (e : Event) : Prop :=
  match e with Console _ _ => True | _ => False end.

Definition authorization_event (e : Event) : Prop :=
  match e with
  | Console _ _ | Prompt _ | TokenRequest _ _ | FileWrite _ _ => True
  | _ => False
  end.

Definition reading_event (e : Event) : Prop :=
  match e with Console _ _ | CalendarList _ _ => True | _ => False end.

Definition asking_event (e : Event) : Prop :=
  match e with Console _ _ | OracleCall _ _ => True | _ => False end.

Definition writing_event (e : Event) : Prop :=
  match e with Console _ _ | CalendarInsert _ _ => True | _ => False end.

(** Not a call to [calendar.events.insert]. *)
Definition no_write (e : Event) : Prop := is_calendar_write e = false.

(** The question [main] asks before it touches the calendar. *)
Definition confirmation_question : string :=
  nl ++ "Do you want to execute these calendar actions? (y/n) ".

(** [m] adds at most one event selected by [sel]. *)
Definition at_most_one {A : Type} (sel : Event -> bool) (m : M A) : Prop :=
  forall w, exists evs,
    trace (snd (m w)) = (trace w ++ evs)%list
    /\ List.length (filter sel evs) <= 1.

(** Whatever [m] writes to the calendar, it writes after it has asked the
    confirmation question. *)
Definition asks_before_writing {A : Type} (m : M A) : Prop :=
  forall w, exists evs,
    trace (snd (m w)) = (trace w ++ evs)%list
    /\ (Forall no_write evs
        \/ exists pre post,
             evs = (pre ++ Prompt confirmation_question :: post)%list
             /\ Forall no_write pre).

(** The title, start and end that an [insert] call carries. *)
Definition sent_slot (e : Event) : option (value * value * value) :=
  match e with
  | CalendarInsert _ p =>
      Some (summary (requestBody p),
            dateTime (start (requestBody p)),
            dateTime (end_ (requestBody p)))
  | _ => None
  end.

Fixpoint sent_slots (events : list Event) : list (value * value * value) :=
  match events with
  | [] => []
  | e :: rest =>
      match sent_slot e with
      | Some slot => slot :: sent_slots rest
      | None => sent_slots rest
      end
  end.

(** The slots of the [CREATE] recommendations of a list, in order. *)
Fixpoint create_slots (recs : list CalendarRecommendation) : list (value * value * value) :=
  match recs with
  | [] => []
  | r :: rest =>
      let d := action_details (rec_calendarAction r) in
      match action_type (rec_calendarAction r) with
      | CREATE =>
          (VStr (d_title d), VStr (d_startTime d), VStr (d_endTime d)) :: create_slots rest
      | MOVE | DELETE => create_slots rest
      end
  end.



(* ===================================================================== *)
(** ** Example runs *)
(* ===================================================================== *)

Module Example.

Import Reference.

Definition light_workout : CalendarRecommendation :=
  {| rec_priority := HIGH;
     rec_title := "Light workout";
     rec_recommendation := "Light 15 min home workout";
     rec_reason := "Daily after grooming";
     rec_calendarAction :=
       {| action_type := CREATE;
          action_details :=
            {| d_title := "Light workout";
               d_description := "";
               d_startTime := "2024-01-01T07:00:00Z";
               d_endTime := "2024-01-01T07:15:00Z" |} |} |}.

Definition book_club : CalendarRecommendation :=
  {| rec_priority := MEDIUM;
     rec_title := "Book Club";
     rec_recommendation := "Book Club every Sunday 3-5pm";
     rec_reason := "Weekly";
     rec_calendarAction :=
       {| action_type := CREATE;
          action_details :=
            {| d_title := "Book Club";
               d_description := "Weekly book club";
               d_startTime := "2024-01-07T15:00:00-08:00";
               d_endTime := "2024-01-07T17:00:00-08:00" |} |} |}.

Definition move_dinner : CalendarRecommendation :=
  {| rec_priority := LOW;
     rec_title := "Dinner";
     rec_recommendation := "Move dinner to 7pm";
     rec_reason := "Dinner around 7pm";
     rec_calendarAction :=
       {| action_type := MOVE;
          action_details :=
            {| d_title := "Dinner";
               d_description := "";
               d_startTime := "2024-01-01T19:00:00Z";
               d_endTime := "2024-01-01T20:00:00Z" |} |} |}.

Definition delete_stale : CalendarRecommendation :=
  {| rec_priority := LOW;
     rec_title := "Stale block";
     rec_recommendation := "Remove the stale block";
     rec_reason := "No longer needed";
     rec_calendarAction :=
       {| action_type := DELETE;
          action_details :=
            {| d_title := "Stale block";
               d_description := "";
               d_startTime := "2024-01-02T09:00:00Z";
               d_endTime := "2024-01-02T10:00:00Z" |} |} |}.

(** A reply element whose [priority] is none of the three enum values. *)
Definition urgent_errand : value :=
  VObj [("priority", VStr "URGENT");
        ("recommendation", VStr "Call the insurer");
        ("reason", VStr "Due in two days");
        ("calendarAction",
         VObj [("type", VStr "CREATE");
               ("details",
                VObj [("title", VStr "Call the insurer");
                      ("description", VStr "");
                      ("startTime", VStr "2024-01-02T12:00:00Z");
                      ("endTime", VStr "2024-01-02T12:30:00Z")])])].

(** A reply element whose start and end coincide. *)
Definition zero_length : value :=
  VObj [("priority", VStr "LOW");
        ("recommendation", VStr "Stretch");
        ("reason", VStr "Recovery");
        ("calendarAction",
         VObj [("type", VStr "CREATE");
               ("details",
                VObj [("title", VStr "Stretch");
                      ("description", VStr "");
                      ("startTime", VStr "2024-01-03T08:00:00Z");
                      ("endTime", VStr "2024-01-03T08:00:00Z")])])].

(** The text the oracle sends for a batch: the JSON document without the
    opening brace that the request pre-seeded. *)
Definition reply_text (batch : list value) : string :=
  match stringify "" (VObj [("recommendations", VArr batch)]) with
  | String _ rest => rest
  | EmptyString => EmptyString
  end.

Definition credentials_text : string :=
  stringify ""
    (VObj [("installed",
            VObj [("client_id", VStr "client-1");
                  ("client_secret", VStr "secret-1");
                  ("redirect_uris", VArr [VStr "http://localhost"])])]).

Definition token_text : string :=
  stringify "" (VObj [("access_token", VStr "token-1")]).

Definition auth : OAuth2Client :=
  {| client_id := VStr "client-1";
     client_secret := VStr "secret-1";
     redirect_uri := VStr "http://localhost";
     credentials := VObj [("access_token", VStr "token-1")] |}.

(** An event as the calendar read returns it. *)
Definition standup : value :=
  VObj [("id", VStr "evt-1");
        ("summary", VStr "Standup");
        ("start", VObj [("dateTime", VStr "2024-01-02T09:00:00-08:00")]);
        ("end", VObj [("dateTime", VStr "2024-01-02T09:15:00-08:00")])].

(** A second event with the same title and times under another id. *)
Definition standup_again : value :=
  VObj [("id", VStr "evt-2");
        ("summary", VStr "Standup");
        ("start", VObj [("dateTime", VStr "2024-01-02T09:00:00-08:00")]);
        ("end", VObj [("dateTime", VStr "2024-01-02T09:15:00-08:00")])].

(** A calendar write that rejects every event with the given title. *)
Definition rejects (title : string)
    (history : list Event) (a : OAuth2Client) (p : InsertParams) : option exn :=
  match summary (requestBody p) with
  | VStr s => if s =? title then Some (Fault "403 Forbidden") else None
  | _ => None
  end.

Definition accepts
    (history : list Event) (a : OAuth2Client) (p : InsertParams) : option exn := None.

(** 2024-01-01T07:00:00Z, then one second per reading. *)
Definition clock (k : nat) : Z := (1704092400000 + 1000 * Z.of_nat k)%Z.

Definition env (credentials : option string) (key : option string) (answer : string)
    (listed : list value) (reply : string)
    (insert : list Event -> OAuth2Client -> InsertParams -> option exn)
  : Environment :=
  {| Date_now := clock;
     strategy_yaml := Some "recurring_events: [Light 15 min home workout every day]";
     credentials_json := credentials;
     token_json := Some token_text;
     ANTHROPIC_API_KEY := key;
     authorization_code := "4/code";
     confirmation_answer := answer;
     getToken := fun _ _ _ => inr (VObj [("access_token", VStr "token-1")]);
     writeFileSync := fun _ _ _ => None;
     events_list := fun _ _ _ => inr (Some listed);
     events_insert := insert;
     messages_create := fun _ _ _ => inr [TextBlock reply] |}.

(** The oracle answers with [batch]; the operator types [answer]. *)
Definition run_with (key : option string) (answer : string) (batch : list value)
    (insert : list Event -> OAuth2Client -> InsertParams -> option exn) : Environment :=
  env (Some credentials_text) key answer [standup; standup_again] (reply_text batch) insert.

Definition week : list CalendarRecommendation :=
  [light_workout; book_club; move_dinner; delete_stale].

(** A reply that is valid JSON without a [recommendations] field. *)
Definition reply_without_field : string :=
  match stringify "" (VObj [("items", VArr [])]) with
  | String _ rest => rest
  | EmptyString => EmptyString
  end.

Definition mixed_batch : list value :=
  [to_value light_workout; urgent_errand; to_value book_club].

Definition standup_triple : value :=
  VObj [("summary", VStr "Standup");
        ("start", VStr "2024-01-02T09:00:00-08:00");
        ("end", VStr "2024-01-02T09:15:00-08:00")].

Definition policy : string := "recurring_events: [Light 15 min home workout every day]".

Definition later : World :=
  {| trace := [Console Log [AStr "Strategy loaded"]]; clock_reads := 0 |}.


(** [e] with an oracle that always gives [answer]. *)
Definition with_oracle (answer : exn + list ContentBlock) (e : Environment) : Environment :=
  {| Date_now := Date_now e;
     strategy_yaml := strategy_yaml e;
     credentials_json := credentials_json e;
     token_json := token_json e;
     ANTHROPIC_API_KEY := ANTHROPIC_API_KEY e;
     authorization_code := authorization_code e;
     confirmation_answer := confirmation_answer e;
     getToken := getToken e;
     writeFileSync := writeFileSync e;
     events_list := events_list e;
     events_insert := events_insert e;
     messages_create := fun _ _ _ => answer |}.


(** [e] on a machine that has no [token.json] yet. *)
Definition without_token (e : Environment) : Environment :=
  {| Date_now := Date_now e;
     strategy_yaml := strategy_yaml e;
     credentials_json := credentials_json e;
     token_json := None;
     ANTHROPIC_API_KEY := ANTHROPIC_API_KEY e;
     authorization_code := authorization_code e;
     confirmation_answer := confirmation_answer e;
     getToken := getToken e;
     writeFileSync := writeFileSync e;
     events_list := events_list e;
     events_insert := events_insert e;
     messages_create := messages_create e |}.

(** [e] without its policy file. *)
Definition without_policy (e : Environment) : Environment :=
  {| Date_now := Date_now e;
     strategy_yaml := None;
     credentials_json := credentials_json e;
     token_json := token_json e;
     ANTHROPIC_API_KEY := ANTHROPIC_API_KEY e;
     authorization_code := authorization_code e;
     confirmation_answer := confirmation_answer e;
     getToken := getToken e;
     writeFileSync := writeFileSync e;
     events_list := events_list e;
     events_insert := events_insert e;
     messages_create := messages_create e |}.

(** A policy in the form [yaml.stringify] itself writes: one key, a block
    sequence of one plain scalar, a final line break. *)
Definition block_policy : string :=
  "recurring_events:" ++ nl ++ "  - Light 15 min home workout every day" ++ nl.

(** [e] with [text] as its policy file. *)
Definition with_policy (text : string) (e : Environment) : Environment :=
  {| Date_now := Date_now e;
     strategy_yaml := Some text;
     credentials_json := credentials_json e;
     token_json := token_json e;
     ANTHROPIC_API_KEY := ANTHROPIC_API_KEY e;
     authorization_code := authorization_code e;
     confirmation_answer := confirmation_answer e;
     getToken := getToken e;
     writeFileSync := writeFileSync e;
     events_list := events_list e;
     events_insert := events_insert e;
     messages_create := messages_create e |}.

(** An element whose action type is spelled in lower case. *)
Definition lower_case_create : value :=
  VObj [("priority", VStr "LOW");
        ("calendarAction",
         VObj [("type", VStr "create");
               ("details", VObj [("title", VStr "Walk")])])].

(** An element that only has a priority. *)
Definition bare_element : value := VObj [("priority", VStr "HIGH")].

(** A [CREATE] element whose details only have a title and a start. *)
Definition sparse_create : value :=
  VObj [("calendarAction",
         VObj [("type", VStr "CREATE");
               ("details", VObj [("title", VStr "Walk");
                                 ("startTime", VStr "2024-01-04T18:00:00Z")])])].

Definition installed_client : value :=
  VObj [("client_id", VStr "client-1");
        ("client_secret", VStr "secret-1");
        ("redirect_uris", VArr [VStr "http://localhost"])].

Definition fresh_client : OAuth2Client :=
  {| client_id := VStr "client-1";
     client_secret := VStr "secret-1";
     redirect_uri := VStr "http://localhost";
     credentials := VObj [] |}.

(** A confirmed run with one recommendation: its events, of which the
    fourteenth is the [insert] call. *)
Definition confirmed_events : list Event :=
  events_since start_of_run
    (snd (main (run_with (Some "sk-1") "Y" [to_value light_workout] accepts) start_of_run)).

End Example.

(* ===================================================================== *)
(** ** What a recommendation of the declared shape makes the loop do *)
(* ===================================================================== *)

Section Expected.

Context {P : Platform}.
Variable E : Environment.
Variable auth : OAuth2Client.

(** The parameters [getCalendarEvents] sends when its two clock readings
    are [t0] and [t1]. *)
Definition windowParams (t0 t1 : Z) : ListParams :=
  {| list_calendarId := "primary";
     timeMin := toISOString (t0 - 30 * 24 * 60 * 60 * 1000);
     timeMax := toISOString (t1 + 7 * 24 * 60 * 60 * 1000);
     singleEvents := true;
     orderBy := "startTime" |}.

(** The [catch] of the loop can report on [r]: [r.title] can be read and
    printed.  It holds for every object without a [title], or with a [title]
    that is a string, a number, a boolean or [null]. *)
Definition reportable (r : value) : bool :=
  match get_prop r "title" with
  | inr title =>
      match ToString title with
      | Some _ => true
      | None => false
      end
  | inl _ => false
  end.

(** The parameters [case 'CREATE'] builds for [r] when the clock reads
    [stamp]. *)
Definition createParams (r : CalendarRecommendation) (stamp : string) : InsertParams :=
  let d := action_details (rec_calendarAction r) in
  {| calendarId := "primary";
     requestBody :=
       {| summary := VStr (d_title d);
          description := d_description d;
          start := {| dateTime := VStr (d_startTime d);
                      timeZone := "America/Los_Angeles" |};
          end_ := {| dateTime := VStr (d_endTime d);
                     timeZone := "America/Los_Angeles" |};
          extendedProperties_private :=
            {| createdBy := "time-management-system";
               priority := VStr (priority_text (rec_priority r));
               timestamp := stamp |} |} |}.

Definition creating_line (r : CalendarRecommendation) : Event :=
  Console Log [AStr ("Creating event: " ++ d_title (action_details (rec_calendarAction r)))].

Definition created_line (r : CalendarRecommendation) : Event :=
  Console Log [AStr (created_mark ++ " Created: "
                     ++ d_title (action_details (rec_calendarAction r)))].

Definition failed_line (r : CalendarRecommendation) (error : exn) : Event :=
  Console Err [AStr ("Failed to process recommendation: " ++ rec_title r); AExn error].

(** The request that the iteration for [r] sends when it starts in [w]. *)
Definition request_for (r : CalendarRecommendation) (w : World) : InsertParams :=
  createParams r (toISOString (Date_now E (clock_reads w))).

(** How the calendar write answers that request; [None] is success, and
    also the answer for a recommendation that sends no request. *)
Definition insert_answer (r : CalendarRecommendation) (w : World) : option exn :=
  match action_type (rec_calendarAction r) with
  | CREATE => events_insert E (trace w ++ [creating_line r]) auth (request_for r w)
  | MOVE | DELETE => None
  end.

(** The events one iteration adds. *)
Definition iteration_events (r : CalendarRecommendation) (w : World) : list Event :=
  match action_type (rec_calendarAction r) with
  | CREATE =>
      [creating_line r; CalendarInsert auth (request_for r w);
       match insert_answer r w with
       | None => created_line r
       | Some error => failed_line r error
       end]
  | MOVE => [Console Log [AStr "Move event functionality not implemented yet"]]
  | DELETE => [Console Log [AStr "Delete event functionality not implemented yet"]]
  end.

Definition iteration_world (r : CalendarRecommendation) (w : World) : World :=
  {| trace := trace w ++ iteration_events r w;
     clock_reads :=
       match action_type (rec_calendarAction r) with
       | CREATE => S (clock_reads w)
       | MOVE | DELETE => clock_reads w
       end |}.

(** The outcome the specification assigns to that iteration. *)
Definition iteration_outcome (r : CalendarRecommendation) (w : World) : ActionOutcome :=
  match action_type (rec_calendarAction r) with
  | CREATE =>
      match insert_answer r w with
      | None => Applied
      | Some error => Failed error
      end
  | MOVE | DELETE => Skipped "not supported"
  end.

(** The world in which the iteration for the [k]-th recommendation starts,
    when the loop starts in [w]. *)
Fixpoint world_before (recs : list CalendarRecommendation) (w : World) (k : nat) : World :=
  match k, recs with
  | S k', r :: rest => world_before rest (iteration_world r w) k'
  | _, _ => w
  end.

(** The outcomes of a loop over [recs] that starts in [w]. *)
Fixpoint run_outcomes (recs : list CalendarRecommendation) (w : World)
  : list ActionOutcome :=
  match recs with
  | [] => []
  | r :: rest => iteration_outcome r w :: run_outcomes rest (iteration_world r w)
  end.

Definition processing_line (n : nat) : Event :=
  Console Log [AStr ("Processing " ++ nat_to_string n ++ " calendar actions...")].

(** The answer of the calendar write to the call made for the [k]-th
    recommendation of a run of [executeCalendarActions] started in [w]. *)
Definition fault_at (recs : list CalendarRecommendation) (w : World) (k : nat)
  : option exn :=
  match nth_error recs k with
  | Some r =>
      insert_answer r (world_before recs (record (processing_line (List.length recs)) w) k)
  | None => None
  end.

(** The world in which the loop over [recs] starts its [k]-th iteration,
    when the loop starts in [w]. *)
Fixpoint world_at (recs : list value) (w : World) (k : nat) : World :=
  match k, recs with
  | S k', r :: rest => world_at rest (snd (processRecommendation E auth r w)) k'
  | _, _ => w
  end.

(** The events of the iterations that the loop runs on [recs] from [w], one
    list per iteration, in order; the loop stops after an iteration that
    throws. *)
Fixpoint iterations (recs : list value) (w : World) : list (list Event) :=
  match recs with
  | [] => []
  | r :: rest =>
      let result := processRecommendation E auth r w in
      events_since w (snd result)
      :: match fst result with
         | inr _ => iterations rest (snd result)
         | inl _ => []
         end
  end.

End Expected.

(* ===================================================================== *)
(** ** Lemmas on the monad *)
(* ===================================================================== *)

Lemma app_record (e : Event) (w : World) : trace (record e w) = (trace w ++ [e])%list.
Proof. reflexivity. Qed.

Lemma events_since_app (w w' : World) (evs : list Event) :
  trace w' = (trace w ++ evs)%list -> events_since w w' = evs.
Proof.
  intros H. unfold events_since. rewrite H.
  rewrite skipn_app, skipn_all, Nat.sub_diag. reflexivity.
Qed.

Lemma outcomes_app (xs ys : list Event) :
  outcomes (xs ++ ys)%list = (outcomes xs ++ outcomes ys)%list.
Proof.
  induction xs as [|e xs IH]; simpl; [reflexivity|].
  destruct (outcome_of e); simpl; now rewrite IH.
Qed.

Section ReconcilerSteps.

Context {P : Platform}.
Variable E : Environment.
Variable auth : OAuth2Client.

Ltac step :=
  unfold processRecommendation, dispatchAction, createEvent, reportFailure,
    details_field, try_catch, bind, prop, lift, to_string, ret, throw,
    console_log, console_warn, emit, now, call_events_insert; simpl.

(** One iteration on a recommendation of the declared shape never throws
    and adds exactly [iteration_events]. *)
Lemma processRecommendation_typed (r : CalendarRecommendation) (w : World) :
  processRecommendation E auth (to_value r) w = (inr tt, iteration_world E auth r w).
Proof.
  destruct r as [p t rc rs [ty [dt dd ds de]]].
  unfold iteration_world, iteration_events, insert_answer, request_for, createParams,
    creating_line, created_line, failed_line.
  destruct ty; step.
  - destruct (events_insert E _ auth _) eqn:Hins; simpl;
      unfold record; simpl; rewrite <- ?app_assoc; reflexivity.
  - reflexivity.
  - reflexivity.
Qed.

End ReconcilerSteps.

(* ===================================================================== *)
(** ** Safety of traces *)
(* ===================================================================== *)

Create HintDb emits.

Section TraceSafety.

Context {P : Platform}.
Variable E : Environment.
Variable Q : Event -> Prop.

Lemma only_emits_silent {A : Type} (m : M A) :
  (forall w, trace (snd (m w)) = trace w) -> only_emits Q m.
Proof.
  intros H w. exists []. rewrite H, app_nil_r. split; [reflexivity | constructor].
Qed.

Lemma only_emits_ret {A : Type} (a : A) : only_emits Q (ret a).
Proof. apply only_emits_silent. reflexivity. Qed.

Lemma only_emits_throw {A : Type} (e : exn) : only_emits Q (@throw A e).
Proof. apply only_emits_silent. reflexivity. Qed.

Lemma only_emits_lift {A : Type} (r : exn + A) : only_emits Q (lift r).
Proof. apply only_emits_silent. reflexivity. Qed.

Lemma only_emits_now : only_emits Q (now E).
Proof. apply only_emits_silent. reflexivity. Qed.

Lemma only_emits_prop (v : value) (k : string) : only_emits Q (prop v k).
Proof. apply only_emits_lift. Qed.

Lemma only_emits_to_string (v : value) : only_emits Q (to_string v).
Proof. apply only_emits_lift. Qed.

Lemma only_emits_parse_json (text : string) : only_emits Q (parse_json text).
Proof.
  unfold parse_json. destruct (JSON_parse text);
    [apply only_emits_ret | apply only_emits_throw].
Qed.

Lemma only_emits_readFileSync (file : option string) : only_emits Q (readFileSync file).
Proof.
  destruct file; [apply only_emits_ret | apply only_emits_throw].
Qed.

Lemma only_emits_one {A : Type} (m : M A) (e : Event) :
  Q e -> (forall w, snd (m w) = record e w) -> only_emits Q m.
Proof.
  intros HQ H w. exists [e]. rewrite H. split; [reflexivity | now constructor].
Qed.

Lemma only_emits_emit (e : Event) : Q e -> only_emits Q (emit e).
Proof. intros HQ. now apply only_emits_one with (e := e). Qed.

Lemma only_emits_console_log (s : string) :
  Q (Console Log [AStr s]) -> only_emits Q (console_log s).
Proof. apply only_emits_emit. Qed.

Lemma only_emits_console_warn (s : string) :
  Q (Console Warn [AStr s]) -> only_emits Q (console_warn s).
Proof. apply only_emits_emit. Qed.

Lemma only_emits_call_getToken (c : OAuth2Client) (code : string) :
  Q (TokenRequest c code) -> only_emits Q (call_getToken E c code).
Proof. intros HQ. now apply only_emits_one with (e := TokenRequest c code). Qed.

Lemma only_emits_call_writeFileSync (file data : string) :
  Q (FileWrite file data) -> only_emits Q (call_writeFileSync E file data).
Proof. intros HQ. now apply only_emits_one with (e := FileWrite file data). Qed.

Lemma only_emits_call_events_list (a : OAuth2Client) (p : ListParams) :
  Q (CalendarList a p) -> only_emits Q (call_events_list E a p).
Proof. intros HQ. now apply only_emits_one with (e := CalendarList a p). Qed.

Lemma only_emits_call_events_insert (a : OAuth2Client) (p : InsertParams) :
  Q (CalendarInsert a p) -> only_emits Q (call_events_insert E a p).
Proof. intros HQ. now apply only_emits_one with (e := CalendarInsert a p). Qed.

Lemma only_emits_call_messages_create (key : string) (r : MessagesRequest) :
  Q (OracleCall key r) -> only_emits Q (call_messages_create E key r).
Proof. intros HQ. now apply only_emits_one with (e := OracleCall key r). Qed.

Lemma only_emits_bind {A B : Type} (m : M A) (k : A -> M B) :
  only_emits Q m -> (forall a, only_emits Q (k a)) -> only_emits Q (bind m k).
Proof.
  intros Hm Hk w. unfold bind.
  destruct (Hm w) as [evs [Ht Hq]].
  destruct (m w) as [[e|a] w1]; simpl in *.
  - exists evs. now split.
  - destruct (Hk a w1) as [evs' [Ht' Hq']].
    exists (evs ++ evs')%list. rewrite Ht', Ht, app_assoc.
    split; [reflexivity | now apply Forall_app].
Qed.

Lemma only_emits_try_catch {A : Type} (body : M A) (handler : exn -> M A) :
  only_emits Q body -> (forall e, only_emits Q (handler e)) ->
  only_emits Q (try_catch body handler).
Proof.
  intros Hm Hk w. unfold try_catch.
  destruct (Hm w) as [evs [Ht Hq]].
  destruct (body w) as [[e|a] w1]; simpl in *.
  - destruct (Hk e w1) as [evs' [Ht' Hq']].
    exists (evs ++ evs')%list. rewrite Ht', Ht, app_assoc.
    split; [reflexivity | now apply Forall_app].
  - exists evs. now split.
Qed.

Lemma only_emits_for_of {A : Type} (xs : list A) (body : A -> M unit) :
  (forall x, only_emits Q (body x)) -> only_emits Q (for_of xs body).
Proof.
  intros Hb. induction xs as [|x xs IH]; simpl.
  - apply only_emits_ret.
  - apply only_emits_bind; [apply Hb | intros _; exact IH].
Qed.

(** A computation that throws at once makes what follows it unreachable. *)
Lemma only_emits_unreachable {A B : Type} (m : M A) (k : A -> M B) (e : exn) :
  (forall w, m w = (inl e, w)) -> only_emits Q (bind m k).
Proof.
  intros H. apply only_emits_silent. intros w. unfold bind. now rewrite H.
Qed.

Lemma only_emits_since {A : Type} (m : M A) (w : World) :
  only_emits Q m -> Forall Q (events_since w (snd (m w))).
Proof.
  intros H. destruct (H w) as [evs [Ht Hq]].
  now rewrite (events_since_app _ _ _ Ht).
Qed.

End TraceSafety.

#[export] Hint Resolve only_emits_ret only_emits_throw only_emits_lift only_emits_now
  only_emits_prop only_emits_to_string only_emits_parse_json only_emits_readFileSync
  : emits.

(** Splits a computation along its binds, handlers and branches; [side]
    proves that each emitted event is allowed. *)
Ltac emits_with side :=
  repeat first
    [ apply only_emits_bind; [| intros ?]
    | apply only_emits_try_catch; [| intros ?]
    | apply only_emits_for_of; intros ?
    | solve [auto with emits]
    | apply only_emits_emit; solve [side]
    | apply only_emits_console_log; solve [side]
    | apply only_emits_console_warn; solve [side]
    | apply only_emits_call_getToken; solve [side]
    | apply only_emits_call_writeFileSync; solve [side]
    | apply only_emits_call_events_list; solve [side]
    | apply only_emits_call_events_insert; solve [side]
    | apply only_emits_call_messages_create; solve [side]
    | match goal with
      | |- only_emits _ (if ?b then _ else _) => destruct b
      | |- only_emits _ (match ?x with _ => _ end) => destruct x
      end ].

(* ===================================================================== *)
(** ** The reconciler: [executeCalendarActions] *)
(* ===================================================================== *)

Section Reconciler.

Context {P : Platform}.
Variable E : Environment.
Variable auth : OAuth2Client.

Lemma processRecommendation_time_zone (recommendation : value) :
  only_emits fixed_time_zone (processRecommendation E auth recommendation).
Proof.
  unfold processRecommendation, dispatchAction, reportFailure, createEvent, details_field.
  emits_with ltac:(simpl; auto).
Qed.

(** Whatever the elements are, no event leaves [executeCalendarActions] for
    [calendar.events.insert] with another time zone than
    ['America/Los_Angeles'] on its start and on its end. *)
Lemma inserts_use_fixed_time_zone (suggestions : SchedulingSuggestions) (w : World) :
  Forall fixed_time_zone
    (events_since w (snd (executeCalendarActions E auth suggestions w))).
Proof.
  apply only_emits_since. unfold executeCalendarActions.
  apply only_emits_bind.
  - apply only_emits_console_log. exact I.
  - intros _. apply only_emits_for_of. intros r.
    apply processRecommendation_time_zone.
Qed.

(** *** The loop on recommendations of the declared shape *)

Lemma outcome_of_processing (s : string) :
  outcome_of (Console Log [AStr ("Processing " ++ s)]) = None.
Proof. reflexivity. Qed.

Lemma outcome_of_creating (s : string) :
  outcome_of (Console Log [AStr ("Creating event: " ++ s)]) = None.
Proof. reflexivity. Qed.

Lemma outcome_of_created (s : string) :
  outcome_of (Console Log [AStr (created_mark ++ " Created: " ++ s)]) = Some Applied.
Proof. reflexivity. Qed.

Lemma outcome_of_failed (s : string) (error : exn) :
  outcome_of (Console Err [AStr ("Failed to process recommendation: " ++ s); AExn error])
  = Some (Failed error).
Proof. reflexivity. Qed.

Lemma outcomes_iteration (r : CalendarRecommendation) (w : World) :
  outcomes (iteration_events E auth r w) = [iteration_outcome E auth r w].
Proof.
  unfold iteration_events, iteration_outcome.
  destruct (action_type (rec_calendarAction r)); try reflexivity.
  unfold outcomes, creating_line. rewrite outcome_of_creating.
  cbn [outcome_of].
  destruct (insert_answer E auth r w) as [error|].
  - unfold failed_line. now rewrite outcome_of_failed.
  - unfold created_line. now rewrite outcome_of_created.
Qed.

Lemma for_of_typed (recs : list CalendarRecommendation) (w : World) :
  for_of (map to_value recs) (processRecommendation E auth) w
  = (inr tt, world_before E auth recs w (List.length recs)).
Proof.
  revert w. induction recs as [|r recs IH]; intros w; simpl.
  - reflexivity.
  - unfold bind. rewrite processRecommendation_typed. apply IH.
Qed.

Lemma length_run_outcomes (recs : list CalendarRecommendation) (w : World) :
  List.length (run_outcomes E auth recs w) = List.length recs.
Proof.
  revert w. induction recs as [|r recs IH]; intros w; simpl; [reflexivity|].
  now rewrite IH.
Qed.

Lemma nth_run_outcomes (recs : list CalendarRecommendation) (w : World) (k : nat) :
  nth_error (run_outcomes E auth recs w) k
  = option_map (fun r => iteration_outcome E auth r (world_before E auth recs w k))
      (nth_error recs k).
Proof.
  revert w k. induction recs as [|r recs IH]; intros w [|k]; simpl; try reflexivity.
  apply IH.
Qed.

Lemma trace_world_before (recs : list CalendarRecommendation) (w : World) :
  exists evs,
    trace (world_before E auth recs w (List.length recs)) = (trace w ++ evs)%list
    /\ outcomes evs = run_outcomes E auth recs w.
Proof.
  revert w. induction recs as [|r recs IH]; intros w; simpl.
  - exists []. now rewrite app_nil_r.
  - destruct (IH (iteration_world E auth r w)) as [evs [Ht Ho]].
    exists (iteration_events E auth r w ++ evs)%list. split.
    + rewrite Ht. simpl. now rewrite app_assoc.
    + now rewrite outcomes_app, outcomes_iteration, Ho.
Qed.

(** On recommendations of the declared shape the whole loop runs, and the
    outcome lines it leaves are those of [run_outcomes]. *)
Lemma executeCalendarActions_typed (recs : list CalendarRecommendation) (w : World) :
  let w0 := record (processing_line (List.length recs)) w in
  let result := executeCalendarActions E auth {| recommendations := map to_value recs |} w in
  fst result = inr tt
  /\ snd result = world_before E auth recs w0 (List.length recs)
  /\ outcomes (events_since w (snd result)) = run_outcomes E auth recs w0.
Proof.
  cbv zeta.
  assert (Hrun : executeCalendarActions E auth {| recommendations := map to_value recs |} w
                 = (inr tt, world_before E auth recs
                              (record (processing_line (List.length recs)) w)
                              (List.length recs))).
  { unfold executeCalendarActions, bind, console_log, emit.
    cbn [recommendations]. rewrite length_map. apply for_of_typed. }
  rewrite Hrun. cbn [fst snd]. repeat split.
  destruct (trace_world_before recs (record (processing_line (List.length recs)) w))
    as [evs [Ht Ho]].
  rewrite app_record, <- app_assoc in Ht.
  rewrite (events_since_app _ _ _ Ht). cbn [app outcomes].
  unfold processing_line at 1. rewrite outcome_of_processing. exact Ho.
Qed.

Lemma outcome_at (recs : list CalendarRecommendation) (w : World) (k : nat)
    (r : CalendarRecommendation) :
  nth_error recs k = Some r ->
  nth_error (run_outcomes E auth recs (record (processing_line (List.length recs)) w)) k
  = Some (match action_type (rec_calendarAction r) with
          | CREATE =>
              match fault_at E auth recs w k with
              | None => Applied
              | Some error => Failed error
              end
          | MOVE | DELETE => Skipped "not supported"
          end).
Proof.
  intros Hr. rewrite nth_run_outcomes, Hr. simpl.
  unfold fault_at. rewrite Hr. unfold iteration_outcome. reflexivity.
Qed.

(** C2. When the calendar write rejects the call made for exactly one of
    [N] recommendations, [executeCalendarActions] still returns normally,
    the console holds [N] outcome lines, the line at that index is the
    failure with the rejection as its reason, and every other line is a
    creation or a skip: the loop went on after the failure. *)
Theorem failure_is_isolated (recs : list CalendarRecommendation) (w : World)
    (i : nat) (error : exn) :
  i < List.length recs ->
  (forall k, k < List.length recs ->
     fault_at E auth recs w k = if Nat.eqb k i then Some error else None) ->
  let result := executeCalendarActions E auth {| recommendations := map to_value recs |} w in
  let outs := outcomes (events_since w (snd result)) in
  fst result = inr tt
  /\ List.length outs = List.length recs
  /\ nth_error outs i = Some (Failed error)
  /\ forall k, k < List.length recs -> k <> i ->
       nth_error outs k = Some Applied
       \/ nth_error outs k = Some (Skipped "not supported").
Proof.
  intros Hi Hfault. cbv zeta.
  destruct (executeCalendarActions_typed recs w) as [Hres [_ Houts]].
  rewrite Houts. split; [exact Hres|]. split; [apply length_run_outcomes|]. split.
  - destruct (nth_error recs i) as [r|] eqn:Hr.
    + rewrite (outcome_at _ _ _ _ Hr).
      pose proof (Hfault i Hi) as Hf. rewrite Nat.eqb_refl in Hf.
      destruct (action_type (rec_calendarAction r)) eqn:Hty.
      * now rewrite Hf.
      * unfold fault_at, insert_answer in Hf. rewrite Hr, Hty in Hf. discriminate.
      * unfold fault_at, insert_answer in Hf. rewrite Hr, Hty in Hf. discriminate.
    + apply nth_error_None in Hr. lia.
  - intros k Hk Hne.
    destruct (nth_error recs k) as [r|] eqn:Hr.
    + rewrite (outcome_at _ _ _ _ Hr).
      pose proof (Hfault k Hk) as Hf.
      apply Nat.eqb_neq in Hne. rewrite Hne in Hf. rewrite Hf.
      destruct (action_type (rec_calendarAction r)); auto.
    + apply nth_error_None in Hr. lia.
Qed.

(** On recommendations of the declared shape, the outcome line of each
    one is determined by its action type and by the answer of the calendar. *)
Lemma outcome_lines_of_typed (recs : list CalendarRecommendation) (w : World) :
  let result := executeCalendarActions E auth {| recommendations := map to_value recs |} w in
  let outs := outcomes (events_since w (snd result)) in
  fst result = inr tt
  /\ List.length outs = List.length recs
  /\ forall k r, nth_error recs k = Some r ->
       nth_error outs k
       = Some (match action_type (rec_calendarAction r) with
               | CREATE =>
                   match fault_at E auth recs w k with
                   | None => Applied
                   | Some error => Failed error
                   end
               | MOVE | DELETE => Skipped "not supported"
               end).
Proof.
  cbv zeta.
  destruct (executeCalendarActions_typed recs w) as [Hres [_ Houts]].
  rewrite Houts. split; [exact Hres|]. split; [apply length_run_outcomes|].
  intros k r Hr. now apply outcome_at.
Qed.

(** *** The loop on arbitrary elements *)

Lemma outcomes_none (evs : list Event) : Forall no_outcome evs -> outcomes evs = [].
Proof.
  induction 1 as [|e evs He _ IH]; simpl; [reflexivity|]. now rewrite He.
Qed.

Lemma ends_with_outcome_bind {A : Type} (m : M A) (k : A -> M unit) :
  only_emits no_outcome m -> (forall a, ends_with_outcome (k a)) ->
  ends_with_outcome (bind m k).
Proof.
  intros Hm Hk w. unfold bind.
  destruct (Hm w) as [evs [Ht Hq]]. apply outcomes_none in Hq.
  destruct (m w) as [[e|a] w1]; cbn [fst snd] in *.
  - exists evs. now split.
  - destruct (Hk a w1) as [evs' [Ht' Ho]].
    exists (evs ++ evs')%list. rewrite Ht', Ht, app_assoc. split; [reflexivity|].
    rewrite outcomes_app, Hq. exact Ho.
Qed.

Lemma ends_with_outcome_emit (e : Event) (o : ActionOutcome) :
  outcome_of e = Some o -> ends_with_outcome (emit e).
Proof.
  intros He w. exists [e]. split; [reflexivity|].
  cbn [emit fst]. exists o. cbn [outcomes]. now rewrite He.
Qed.

Lemma outcome_of_unknown (s : string) :
  outcome_of (Console Warn [AStr ("Unknown action type: " ++ s)])
  = Some (Skipped "unknown action type").
Proof. reflexivity. Qed.

Lemma createEvent_ends_with_outcome (recommendation calendarAction : value) :
  ends_with_outcome (createEvent E auth recommendation calendarAction).
Proof.
  unfold createEvent, details_field.
  repeat (apply ends_with_outcome_bind;
          [ emits_with ltac:(first [ apply outcome_of_creating | reflexivity ])
          | intros ? ]).
  eapply ends_with_outcome_emit. apply outcome_of_created.
Qed.

Lemma dispatchAction_ends_with_outcome (recommendation : value) :
  ends_with_outcome (dispatchAction E auth recommendation).
Proof.
  unfold dispatchAction.
  apply ends_with_outcome_bind; [auto with emits | intros calendarAction].
  apply ends_with_outcome_bind; [auto with emits | intros type].
  destruct (strict_eq_str type "CREATE"); [apply createEvent_ends_with_outcome|].
  destruct (strict_eq_str type "MOVE");
    [eapply ends_with_outcome_emit; reflexivity|].
  destruct (strict_eq_str type "DELETE");
    [eapply ends_with_outcome_emit; reflexivity|].
  apply ends_with_outcome_bind; [auto with emits | intros shown].
  eapply ends_with_outcome_emit. apply outcome_of_unknown.
Qed.

Lemma reportFailure_reportable (recommendation : value) (error : exn) (w : World) :
  reportable recommendation = true ->
  exists line,
    reportFailure recommendation error w
    = (inr tt, record (Console Err [AStr ("Failed to process recommendation: " ++ line);
                                    AExn error]) w).
Proof.
  unfold reportable, reportFailure, bind, prop, lift, to_string.
  destruct (get_prop recommendation "title") as [e|title]; [discriminate|].
  destruct (ToString title) as [line|]; [|discriminate].
  intros _. now exists line.
Qed.

(** One iteration on an element the [catch] can report on returns normally
    and leaves exactly one outcome line. *)
Lemma processRecommendation_one_outcome (recommendation : value) (w : World) :
  reportable recommendation = true ->
  fst (processRecommendation E auth recommendation w) = inr tt
  /\ exists evs o,
       trace (snd (processRecommendation E auth recommendation w)) = (trace w ++ evs)%list
       /\ outcomes evs = [o].
Proof.
  intros Hrep. unfold processRecommendation, try_catch.
  destruct (dispatchAction_ends_with_outcome recommendation w) as [evs [Ht Ho]].
  destruct (dispatchAction E auth recommendation w) as [[error|[]] w1]; cbn [fst snd] in *.
  - destruct (reportFailure_reportable recommendation error w1 Hrep) as [line Hline].
    rewrite Hline. cbn [fst snd]. split; [reflexivity|].
    eexists. exists (Failed error). rewrite app_record, Ht, <- app_assoc.
    split; [reflexivity|].
    rewrite outcomes_app, Ho. cbn [app outcomes].
    now rewrite outcome_of_failed.
  - split; [reflexivity|]. destruct Ho as [o Ho]. now exists evs, o.
Qed.

Lemma for_of_one_outcome_each (recs : list value) (w : World) :
  Forall (fun r => reportable r = true) recs ->
  fst (for_of recs (processRecommendation E auth) w) = inr tt
  /\ exists evs,
       trace (snd (for_of recs (processRecommendation E auth) w)) = (trace w ++ evs)%list
       /\ List.length (outcomes evs) = List.length recs.
Proof.
  intros H. revert w. induction H as [|r recs Hr _ IH]; intros w; simpl.
  - split; [reflexivity|]. exists []. now rewrite app_nil_r.
  - unfold bind.
    destruct (processRecommendation_one_outcome r w Hr) as [Hres [evs [o [Ht Ho]]]].
    destruct (processRecommendation E auth r w) as [[e|[]] w1]; cbn [fst snd] in *;
      [discriminate|].
    destruct (IH w1) as [Hres' [evs' [Ht' Hlen]]].
    split; [exact Hres'|].
    exists (evs ++ evs')%list. rewrite Ht', Ht, app_assoc. split; [reflexivity|].
    rewrite outcomes_app, Ho. simpl. now rewrite Hlen.
Qed.

(** For elements that the [catch] can report on, the loop goes through the
    whole list and the number of outcome lines is the number of elements. *)
Lemma one_outcome_line_each (recs : list value) (w : World) :
  Forall (fun r => reportable r = true) recs ->
  let result := executeCalendarActions E auth {| recommendations := recs |} w in
  fst result = inr tt
  /\ List.length (outcomes (events_since w (snd result))) = List.length recs
  /\ forall r w', In r recs ->
       fst (processRecommendation E auth r w') = inr tt
       /\ List.length
            (outcomes (events_since w' (snd (processRecommendation E auth r w')))) = 1.
Proof.
  intros H. cbv zeta. unfold executeCalendarActions, bind, console_log, emit.
  cbn [recommendations].
  destruct (for_of_one_outcome_each recs
              (record (processing_line (List.length recs)) w) H) as [Hres [evs [Ht Hlen]]].
  unfold processing_line in *.
  split; [exact Hres|]. split.
  - rewrite app_record, <- app_assoc in Ht.
    rewrite (events_since_app _ _ _ Ht). cbn [app outcomes].
    rewrite outcome_of_processing. exact Hlen.
  - intros r w' Hin.
    rewrite Forall_forall in H.
    destruct (processRecommendation_one_outcome r w' (H r Hin)) as [Hr [evs' [o [Ht' Ho]]]].
    split; [exact Hr|].
    now rewrite (events_since_app _ _ _ Ht'), Ho.
Qed.

Lemma to_value_reportable (r : CalendarRecommendation) : reportable (to_value r) = true.
Proof. reflexivity. Qed.

(** One iteration on an element whose action type is [MOVE] or [DELETE]. *)
Lemma skip_iteration (recommendation calendarAction : value)
    (type : string) (w : World) :
  get_prop recommendation "calendarAction" = inr calendarAction ->
  get_prop calendarAction "type" = inr (VStr type) ->
  type = "MOVE" \/ type = "DELETE" ->
  let result := processRecommendation E auth recommendation w in
  let evs := events_since w (snd result) in
  fst result = inr tt
  /\ evs = [Console Log [AStr (not_implemented_line type)]]
  /\ outcomes evs = [Skipped "not supported"]
  /\ filter is_calendar_write evs = [].
Proof.
  intros Hca Hty Hkind. cbv zeta.
  assert (Hrun : processRecommendation E auth recommendation w
                 = (inr tt, record (Console Log [AStr (not_implemented_line type)]) w)).
  { unfold processRecommendation, dispatchAction, try_catch, bind, prop, lift.
    rewrite Hca, Hty. destruct Hkind; subst type; reflexivity. }
  rewrite Hrun. cbn [fst snd].
  rewrite (events_since_app w _ [Console Log [AStr (not_implemented_line type)]]
             (app_record _ w)).
  destruct Hkind; subst type; repeat split.
Qed.

(** One iteration on a [CREATE] recommendation of the declared shape,
    against a calendar write that always succeeds. *)
Lemma create_iteration (r : CalendarRecommendation) (w : World) :
  action_type (rec_calendarAction r) = CREATE ->
  (forall history a p, events_insert E history a p = None) ->
  let result := processRecommendation E auth (to_value r) w in
  let evs := events_since w (snd result) in
  let d := action_details (rec_calendarAction r) in
  fst result = inr tt
  /\ outcomes evs = [Applied]
  /\ exists p,
       evs = [creating_line r; CalendarInsert auth p; created_line r]
       /\ calendarId p = "primary"
       /\ summary (requestBody p) = VStr (d_title d)
       /\ dateTime (start (requestBody p)) = VStr (d_startTime d)
       /\ dateTime (end_ (requestBody p)) = VStr (d_endTime d)
       /\ createdBy (extendedProperties_private (requestBody p)) = "time-management-system"
       /\ priority (extendedProperties_private (requestBody p))
          = VStr (priority_text (rec_priority r))
       /\ timestamp (extendedProperties_private (requestBody p))
          = toISOString (Date_now E (clock_reads w)).
Proof.
  intros Hty Hok. cbv zeta.
  rewrite processRecommendation_typed. cbn [fst snd].
  assert (Hevs : iteration_events E auth r w
                 = [creating_line r; CalendarInsert auth (request_for E r w); created_line r]).
  { unfold iteration_events, insert_answer. now rewrite Hty, Hok. }
  rewrite (events_since_app w (iteration_world E auth r w) (iteration_events E auth r w)
             eq_refl).
  split; [reflexivity|]. split.
  - rewrite outcomes_iteration. unfold iteration_outcome, insert_answer.
    now rewrite Hty, Hok.
  - exists (request_for E r w). rewrite Hevs. repeat split.
Qed.

End Reconciler.

(* ===================================================================== *)
(** ** The parser: decoding the oracle's reply *)
(* ===================================================================== *)

Section Parser.

Context {P : Platform}.
Variable E : Environment.

Lemma recommendations_field_array (v : value) (l : list value) :
  recommendations_field v = Some l -> get_prop v "recommendations" = inr (VArr l).
Proof.
  unfold recommendations_field.
  destruct (get_prop v "recommendations") as [e|[]]; try discriminate.
  now intros [= ->].
Qed.

Lemma parseSuggestions_cases (text : string) (w : World) :
  parseSuggestions text w
  = match JSON_parse ("{" ++ text) with
    | None => (inl MalformedOutput, parse_failure text SyntaxError w)
    | Some v =>
        match get_prop v "recommendations" with
        | inl cause => (inl MalformedOutput, parse_failure text cause w)
        | inr (VArr l) => (inr v, w)
        | inr _ =>
            (inl MalformedOutput,
             parse_failure text (Error "Invalid response structure") w)
        end
    end.
Proof.
  unfold parseSuggestions, try_catch, bind, parse_json, prop, lift.
  destruct (JSON_parse ("{" ++ text)) as [v|]; [|reflexivity].
  unfold ret. destruct (get_prop v "recommendations") as [cause|recs]; [reflexivity|].
  destruct recs as [| |b|n|s|l|props]; try reflexivity;
    cbn [truthy isArray negb orb]; destruct (negb _); reflexivity.
Qed.

(** C3. The reply is decoded after the opening brace has been put back in
    front of it.  When that text is not valid JSON, or the decoded value has
    no [recommendations] array, parsing fails with [MalformedOutput]; all it
    does before failing is print the cause and the raw reply, so no element
    is looked at. *)
Theorem malformed_output_is_rejected (text : string) (w : World) :
  JSON_parse ("{" ++ text) = None
  \/ (exists v, JSON_parse ("{" ++ text) = Some v /\ recommendations_field v = None) ->
  let result := parseSuggestions text w in
  fst result = inl MalformedOutput
  /\ exists cause,
       events_since w (snd result)
       = [Console Err [AStr "Failed to parse Claude response:"; AExn cause];
          Console Log [AStr "Raw response:"; AStr text]].
Proof.
  intros H. cbv zeta. rewrite parseSuggestions_cases.
  assert (Hev : forall cause,
             events_since w (parse_failure text cause w)
             = [Console Err [AStr "Failed to parse Claude response:"; AExn cause];
                Console Log [AStr "Raw response:"; AStr text]]).
  { intros cause. apply events_since_app. unfold parse_failure.
    rewrite !app_record, <- app_assoc. reflexivity. }
  destruct H as [Hnone | [v [Hsome Hfield]]].
  - rewrite Hnone. split; [reflexivity|]. eexists. apply Hev.
  - rewrite Hsome. unfold recommendations_field in Hfield.
    destruct (get_prop v "recommendations") as [cause|[]];
      try discriminate; (split; [reflexivity|]); eexists; apply Hev.
Qed.

(** C1, as the code has it. The only check on a decoded reply is that its
    [recommendations] field is an array: the parser then returns the decoded
    value itself, so every element of the batch, valid or not, is in the
    result, unchanged and in its original place, and no event is emitted. *)
Theorem every_element_is_returned (text : string) (v : value) (l : list value)
    (w : World) :
  JSON_parse ("{" ++ text) = Some v ->
  recommendations_field v = Some l ->
  parseSuggestions text w = (inr v, w)
  /\ recommendations_of v w = (inr l, w).
Proof.
  intros Hparse Hfield. apply recommendations_field_array in Hfield.
  rewrite parseSuggestions_cases, Hparse, Hfield. split; [reflexivity|].
  unfold recommendations_of, bind, prop, lift. now rewrite Hfield.
Qed.

End Parser.

(* ===================================================================== *)
(** ** The calendar snapshot and the request builder *)
(* ===================================================================== *)

Section Builder.

Context {P : Platform}.

(** The calendar read asks once, for the window from 30 days before the
    first clock reading to 7 days after the second, and returns the items of
    the answer as they are. *)
Lemma getCalendarEvents_window (E : Environment) (auth : OAuth2Client) (w : World) :
  let params := windowParams (Date_now E (clock_reads w)) (Date_now E (S (clock_reads w))) in
  let result := getCalendarEvents E auth w in
  fst result = events_list E (trace w) auth params
  /\ filter is_calendar_read (events_since w (snd result)) = [CalendarList auth params].
Proof.
  cbv zeta. unfold getCalendarEvents, try_catch, bind, now, call_events_list. simpl.
  unfold windowParams, days.
  destruct (events_list E (trace w) auth _) as [error|items]; simpl.
  - split; [reflexivity|].
    erewrite events_since_app; [| unfold record; simpl; rewrite <- app_assoc; reflexivity].
    reflexivity.
  - split; [reflexivity|].
    erewrite events_since_app; [| unfold record; simpl; reflexivity].
    reflexivity.
Qed.

Lemma buildRequest_cases (E : Environment) (strategy : Strategy) (events : list value)
    (w : World) :
  buildRequest E strategy events w
  = match map_throwing formatEvent events with
    | inl e => (inl e, w)
    | inr formatted =>
        let ctx := context strategy formatted (toISOString (Date_now E (clock_reads w))) in
        (inr ctx, {| trace := trace w ++ [Console Log [AStr ctx]];
                     clock_reads := S (clock_reads w) |})
    end.
Proof.
  unfold buildRequest, bind, lift.
  destruct (map_throwing formatEvent events); reflexivity.
Qed.

Lemma parseSuggestions_quiet (text : string) :
  only_emits quiet (parseSuggestions text).
Proof.
  unfold parseSuggestions. emits_with ltac:(reflexivity).
Qed.

Lemma askOracle_quiet_after_call (E : Environment) (key ctx : string) (w : World) :
  exists evs,
    trace (snd (askOracle E key ctx w))
    = (trace w ++ OracleCall key (oracleRequest ctx) :: evs)%list
    /\ Forall quiet evs.
Proof.
  assert (Hk : forall response,
             only_emits quiet
               (match response with
                | [] => throw TypeError
                | OtherBlock _ :: _ => throw (Error "Response type is not text")
                | TextBlock text :: _ => parseSuggestions text
                end)).
  { intros [|[text|type] tl]; auto with emits. apply parseSuggestions_quiet. }
  assert (Hh : forall error,
             only_emits quiet
               (bind (emit (Console Err [AStr "Error getting suggestions from Claude:";
                                         AExn error]))
                  (fun _ => @throw value error))).
  { intros error. emits_with ltac:(reflexivity). }
  unfold askOracle, try_catch, bind at 1, call_messages_create.
  set (w1 := record (OracleCall key (oracleRequest ctx)) w).
  destruct (messages_create E (trace w) key (oracleRequest ctx)) as [error|response].
  - destruct (Hh error w1) as [evs [Ht Hevs]].
    exists evs. split; [|exact Hevs].
    rewrite Ht. unfold w1. now rewrite app_record, <- app_assoc.
  - destruct (Hk response w1) as [evs [Ht Hevs]].
    destruct (match response with
              | [] => throw TypeError
              | OtherBlock _ :: _ => throw (Error "Response type is not text")
              | TextBlock text :: _ => parseSuggestions text
              end w1) as [[error|v] w2] eqn:Hrun; cbn [snd] in Ht.
    + destruct (Hh error w2) as [evs' [Ht' Hevs']].
      exists (evs ++ evs')%list. split; [|now apply Forall_app].
      rewrite Ht', Ht. unfold w1. now rewrite app_record, <- !app_assoc.
    + exists evs. split; [|exact Hevs].
      cbn [snd]. rewrite Ht. unfold w1. now rewrite app_record, <- app_assoc.
Qed.

Lemma filter_quiet (evs : list Event) :
  Forall quiet evs -> filter is_oracle_call evs = [].
Proof.
  induction 1 as [|e evs He _ IH]; simpl; [reflexivity|]. now rewrite He.
Qed.

(** The calls [getSchedulingSuggestions] makes to the oracle: none when the
    key is empty or an event cannot be formatted, else one, with the request
    built from the strategy, the events and the clock reading. *)
Lemma oracle_calls_of_getSchedulingSuggestions (E : Environment) (strategy : Strategy)
    (events : list value) (key : string) (w : World) :
  filter is_oracle_call
    (events_since w (snd (getSchedulingSuggestions E strategy events (Some key) w)))
  = match map_throwing formatEvent events with
    | inr formatted =>
        if key =? "" then []
        else [OracleCall key
                (oracleRequest
                   (context strategy formatted (toISOString (Date_now E (clock_reads w)))))]
    | inl _ => []
    end.
Proof.
  unfold getSchedulingSuggestions.
  assert (Hnil : events_since w w = []).
  { apply events_since_app. now rewrite app_nil_r. }
  destruct (key =? "") eqn:Hkey.
  - unfold throw. cbn [snd]. rewrite Hnil. now destruct (map_throwing formatEvent events).
  - unfold bind at 1. rewrite buildRequest_cases.
    destruct (map_throwing formatEvent events) as [e|formatted].
    + cbn [snd]. now rewrite Hnil.
    + cbv beta zeta iota.
      match goal with
      | |- context [askOracle E key ?c ?w0] =>
          destruct (askOracle_quiet_after_call E key c w0) as [evs [Ht Hevs]]
      end.
      cbn [trace] in Ht. rewrite <- app_assoc in Ht.
      rewrite (events_since_app _ _ _ Ht). simpl.
      now rewrite (filter_quiet _ Hevs).
Qed.

(** C8, as the code has it. The request is determined by the policy, the
    listed events and the clock reading: two runs that agree on them, in any
    two environments and after any two histories, build the same text and
    send the oracle the same request.  Building is not free of effects: it
    reads the clock and prints the text it built on the console; it makes no
    call to a collaborator. *)
Theorem request_is_determined_by_inputs (E1 E2 : Environment) (strategy : Strategy)
    (events : list value) (key : string) (w1 w2 : World) :
  Date_now E1 (clock_reads w1) = Date_now E2 (clock_reads w2) ->
  fst (buildRequest E1 strategy events w1) = fst (buildRequest E2 strategy events w2)
  /\ filter is_oracle_call
       (events_since w1 (snd (getSchedulingSuggestions E1 strategy events (Some key) w1)))
     = filter is_oracle_call
         (events_since w2 (snd (getSchedulingSuggestions E2 strategy events (Some key) w2)))
  /\ events_since w1 (snd (buildRequest E1 strategy events w1))
     = match fst (buildRequest E1 strategy events w1) with
       | inr ctx => [Console Log [AStr ctx]]
       | inl _ => []
       end.
Proof.
  intros Hclock. rewrite !oracle_calls_of_getSchedulingSuggestions, !buildRequest_cases.
  rewrite Hclock.
  destruct (map_throwing formatEvent events) as [e|formatted]; cbv zeta; cbn [fst snd].
  - repeat split. apply events_since_app. now rewrite app_nil_r.
  - repeat split. now apply events_since_app.
Qed.

End Builder.

(* ===================================================================== *)
(** ** The run: [main] *)
(* ===================================================================== *)

Section Run.

Context {P : Platform}.
Variable E : Environment.

Lemma always_throws_bind_l {A B : Type} (m : M A) (k : A -> M B) :
  always_throws m -> always_throws (bind m k).
Proof.
  intros H w. destruct (H w) as [e He]. unfold bind.
  destruct (m w) as [[e'|a] w']; simpl in *; [now exists e' | discriminate].
Qed.

Lemma always_throws_bind_r {A B : Type} (m : M A) (k : A -> M B) :
  (forall a, always_throws (k a)) -> always_throws (bind m k).
Proof.
  intros H w. unfold bind.
  destruct (m w) as [[e'|a] w']; simpl; [now exists e' | apply H].
Qed.

Lemma getAuthenticatedClient_no_oracle_no_write :
  only_emits no_oracle_no_write (getAuthenticatedClient E).
Proof.
  unfold getAuthenticatedClient, question.
  emits_with ltac:(split; reflexivity).
Qed.

Lemma getCalendarEvents_no_oracle_no_write (auth : OAuth2Client) :
  only_emits no_oracle_no_write (getCalendarEvents E auth).
Proof.
  unfold getCalendarEvents.
  emits_with ltac:(split; reflexivity).
Qed.

Lemma getSchedulingSuggestions_without_key (strategy : Strategy) (events : list value)
    (w : World) :
  key_missing (ANTHROPIC_API_KEY E) = true ->
  getSchedulingSuggestions E strategy events (ANTHROPIC_API_KEY E) w
  = (inl (Error "ANTHROPIC_API_KEY not found in environment variables"), w).
Proof.
  unfold key_missing, getSchedulingSuggestions.
  destruct (ANTHROPIC_API_KEY E) as [k|]; [|reflexivity].
  intros ->. reflexivity.
Qed.

Lemma getAuthenticatedClient_without_credentials (w : World) :
  credentials_json E = None ->
  getAuthenticatedClient E w
  = (inl (Error "credentials.json not found in project root"), w).
Proof.
  unfold getAuthenticatedClient. now intros ->.
Qed.

Lemma main_returns (w : World) : fst (main E w) = inr tt.
Proof.
  unfold main, try_catch. destruct (mainBody E w) as [[e|[]] w']; reflexivity.
Qed.

Lemma mainBody_without_key :
  key_missing (ANTHROPIC_API_KEY E) = true ->
  only_emits no_oracle_no_write (mainBody E) /\ always_throws (mainBody E).
Proof.
  intros Hkey. unfold mainBody. split.
  - apply only_emits_bind; [apply only_emits_console_log; split; reflexivity | intros _].
    apply only_emits_bind; [apply only_emits_readFileSync | intros strategyText].
    apply only_emits_bind; [apply only_emits_lift | intros strategy].
    apply only_emits_bind; [apply only_emits_console_log; split; reflexivity | intros _].
    apply only_emits_bind; [apply getAuthenticatedClient_no_oracle_no_write | intros auth].
    apply only_emits_bind; [apply getCalendarEvents_no_oracle_no_write | intros events].
    apply only_emits_bind; [apply only_emits_console_log; split; reflexivity | intros _].
    apply only_emits_bind; [apply only_emits_console_log; split; reflexivity | intros _].
    eapply only_emits_unreachable. intros w.
    now apply getSchedulingSuggestions_without_key.
  - do 8 (apply always_throws_bind_r; intros ?).
    apply always_throws_bind_l. intros w.
    rewrite getSchedulingSuggestions_without_key by exact Hkey. now eexists.
Qed.

Lemma mainBody_without_credentials :
  credentials_json E = None ->
  only_emits (fun e => no_external_call e /\ no_oracle_no_write e) (mainBody E)
  /\ always_throws (mainBody E).
Proof.
  intros Hcred. unfold mainBody. split.
  - apply only_emits_bind;
      [apply only_emits_console_log; repeat split; reflexivity | intros _].
    apply only_emits_bind; [apply only_emits_readFileSync | intros strategyText].
    apply only_emits_bind; [apply only_emits_lift | intros strategy].
    apply only_emits_bind;
      [apply only_emits_console_log; repeat split; reflexivity | intros _].
    eapply only_emits_unreachable. intros w.
    now apply getAuthenticatedClient_without_credentials.
  - do 4 (apply always_throws_bind_r; intros ?).
    apply always_throws_bind_l. intros w.
    rewrite getAuthenticatedClient_without_credentials by exact Hcred. now eexists.
Qed.

Lemma main_only_emits (Q : Event -> Prop) :
  only_emits Q (mainBody E) ->
  (forall error, Q (Console Err [AStr "Error:"; AExn error])) ->
  only_emits Q (main E).
Proof.
  intros Hbody Herr. unfold main. apply only_emits_try_catch; [exact Hbody|].
  intros error. apply only_emits_emit. apply Herr.
Qed.

(** C7, as the code has it. When [credentials.json] is missing the run
    aborts before any call leaves the process.  When the oracle key is
    missing or empty the run aborts before any oracle call and any calendar
    write; the key is only checked inside [getSchedulingSuggestions], after
    the calendar has been read. *)
Theorem missing_configuration_aborts (w : World) :
  credentials_json E = None \/ key_missing (ANTHROPIC_API_KEY E) = true ->
  let evs := events_since w (snd (main E w)) in
  (exists error, fst (mainBody E w) = inl error)
  /\ match credentials_json E with
     | None => Forall no_external_call evs
     | Some _ => Forall no_oracle_no_write evs
     end.
Proof.
  intros H. cbv zeta. split.
  - destruct H as [H|H].
    + apply (proj2 (mainBody_without_credentials H)).
    + apply (proj2 (mainBody_without_key H)).
  - destruct (credentials_json E) as [text|] eqn:Hcred.
    + destruct H as [H|H]; [discriminate|].
      apply only_emits_since. apply main_only_emits; [|split; reflexivity].
      apply (proj1 (mainBody_without_key H)).
    + apply only_emits_since. apply main_only_emits; [|reflexivity].
      intros w0. destruct (proj1 (mainBody_without_credentials Hcred) w0) as [evs [Ht Hq]].
      exists evs. split; [exact Ht|].
      eapply Forall_impl; [|exact Hq]. now intros e [He _].
Qed.

End Run.

(* ===================================================================== *)
(** ** What each stage can and cannot do *)
(* ===================================================================== *)

Section Stages.

Context {P : Platform}.
Variable E : Environment.

Lemma only_emits_impl {A : Type} (Q Q' : Event -> Prop) (m : M A) :
  (forall e, Q e -> Q' e) -> only_emits Q m -> only_emits Q' m.
Proof.
  intros Himp H w. destruct (H w) as [evs [Ht Hq]].
  exists evs. split; [exact Ht|]. eapply Forall_impl; [exact Himp | exact Hq].
Qed.

Lemma only_emits_question (Q : Event -> Prop) (q answer : string) :
  Q (Prompt q) -> only_emits Q (question q answer).
Proof.
  intros HQ. unfold question. emits_with ltac:(exact HQ).
Qed.

(** What follows a question runs with the typed answer. *)
Lemma only_emits_after_question {B : Type} (Q : Event -> Prop) (q answer : string)
    (k : string -> M B) :
  Q (Prompt q) -> only_emits Q (k answer) -> only_emits Q (bind (question q answer) k).
Proof.
  intros HQ Hk w.
  destruct (Hk (record (Prompt q) w)) as [evs [Ht Hq]].
  exists (Prompt q :: evs). split.
  - change (bind (question q answer) k w) with (k answer (record (Prompt q) w)).
    rewrite Ht, app_record, <- app_assoc. reflexivity.
  - now constructor.
Qed.

Lemma getAuthenticatedClient_events :
  only_emits authorization_event (getAuthenticatedClient E).
Proof.
  unfold getAuthenticatedClient, question. emits_with ltac:(exact I).
Qed.

Lemma getCalendarEvents_events (auth : OAuth2Client) :
  only_emits reading_event (getCalendarEvents E auth).
Proof.
  unfold getCalendarEvents. emits_with ltac:(exact I).
Qed.

Lemma getSchedulingSuggestions_events (strategy : Strategy) (events : list value)
    (key : option string) :
  only_emits asking_event (getSchedulingSuggestions E strategy events key).
Proof.
  unfold getSchedulingSuggestions, buildRequest, askOracle, parseSuggestions.
  emits_with ltac:(exact I).
Qed.

Lemma processRecommendation_events (auth : OAuth2Client) (recommendation : value) :
  only_emits writing_event (processRecommendation E auth recommendation).
Proof.
  unfold processRecommendation, dispatchAction, reportFailure, createEvent, details_field.
  emits_with ltac:(exact I).
Qed.

Lemma executeCalendarActions_events (auth : OAuth2Client)
    (suggestions : SchedulingSuggestions) :
  only_emits writing_event (executeCalendarActions E auth suggestions).
Proof.
  unfold executeCalendarActions.
  apply only_emits_bind; [apply only_emits_console_log; exact I | intros _].
  apply only_emits_for_of. intros r. apply processRecommendation_events.
Qed.

Lemma recommendations_of_events (suggestions : value) :
  only_emits console_only (recommendations_of suggestions).
Proof.
  unfold recommendations_of. emits_with ltac:(exact I).
Qed.

Lemma printRecommendations_events (index : nat) (recs : list value) :
  only_emits console_only (printRecommendations index recs).
Proof.
  revert index. induction recs as [|r recs IH]; intros index; simpl.
  - apply only_emits_ret.
  - apply only_emits_bind; [apply only_emits_console_log; exact I | intros _; apply IH].
Qed.

End Stages.

(** Proves that the events of one kind are allowed by the predicate at hand. *)
Ltac kind_allowed :=
  let e := fresh "e" in
  let H := fresh "H" in
  intros e H; destruct e; simpl in H |- *;
  first [ contradiction | reflexivity | exact I | (repeat split; reflexivity) ].

(** Goes through the stages of [mainBody] that cannot add an event
    forbidden by the predicate at hand. *)
Ltac harmless_stage :=
  first
    [ apply only_emits_console_log; first [ reflexivity | exact I | (split; reflexivity) ]
    | apply only_emits_readFileSync
    | apply only_emits_lift
    | apply only_emits_ret
    | (eapply only_emits_impl; [| apply getAuthenticatedClient_events]); kind_allowed
    | (eapply only_emits_impl; [| apply getCalendarEvents_events]); kind_allowed
    | (eapply only_emits_impl; [| apply getSchedulingSuggestions_events]); kind_allowed
    | (eapply only_emits_impl; [| apply recommendations_of_events]); kind_allowed
    | (eapply only_emits_impl; [| apply printRecommendations_events]); kind_allowed
    | (eapply only_emits_impl; [| apply executeCalendarActions_events]); kind_allowed ].

Ltac harmless_stages :=
  repeat (apply only_emits_bind; [harmless_stage | intros ?]).

(* ===================================================================== *)
(** ** The run as a whole: confirmation, retries, unusable answers *)
(* ===================================================================== *)

Section Gate.

Context {P : Platform}.
Variable E : Environment.

Lemma mainBody_declined :
  is_yes (confirmation_answer E) = false -> only_emits no_write (mainBody E).
Proof.
  intros Hno. unfold mainBody. harmless_stages.
  apply only_emits_after_question; [reflexivity|].
  rewrite Hno. apply only_emits_console_log. reflexivity.
Qed.

(** X1. Unless the operator answers [y] or [Y] to the confirmation question,
    a run makes no call to [calendar.events.insert], whatever the oracle
    recommended. *)
Theorem declined_run_writes_nothing (w : World) :
  is_yes (confirmation_answer E) = false ->
  Forall no_write (events_since w (snd (main E w))).
Proof.
  intros Hno. apply only_emits_since.
  apply main_only_emits; [now apply mainBody_declined | reflexivity].
Qed.

(** *** Writes come after the question *)

Lemma asks_before_writing_quiet {A : Type} (m : M A) :
  only_emits no_write m -> asks_before_writing m.
Proof.
  intros H w. destruct (H w) as [evs [Ht Hq]]. exists evs. split; [exact Ht | now left].
Qed.

Lemma asks_before_writing_bind {A B : Type} (m : M A) (k : A -> M B) :
  only_emits no_write m -> (forall a, asks_before_writing (k a)) ->
  asks_before_writing (bind m k).
Proof.
  intros Hm Hk w. unfold bind.
  destruct (Hm w) as [evs [Ht Hq]].
  destruct (m w) as [[e|a] w1]; cbn [fst snd] in *.
  - exists evs. split; [exact Ht | now left].
  - destruct (Hk a w1) as [evs' [Ht' Hcase]].
    exists (evs ++ evs')%list. rewrite Ht', Ht, app_assoc. split; [reflexivity|].
    destruct Hcase as [Hall | [pre [post [Heq Hpre]]]].
    + left. now apply Forall_app.
    + right. exists (evs ++ pre)%list, post. subst evs'.
      rewrite app_assoc. split; [reflexivity | now apply Forall_app].
Qed.

Lemma asks_before_writing_question {B : Type} (answer : string) (k : string -> M B) :
  only_emits (fun _ => True) (k answer) ->
  asks_before_writing (bind (question confirmation_question answer) k).
Proof.
  intros Hk w.
  destruct (Hk (record (Prompt confirmation_question) w)) as [evs [Ht _]].
  exists (Prompt confirmation_question :: evs). split.
  - change (bind (question confirmation_question answer) k w)
      with (k answer (record (Prompt confirmation_question) w)).
    rewrite Ht, app_record, <- app_assoc. reflexivity.
  - right. exists [], evs. split; [reflexivity | constructor].
Qed.

Lemma asks_before_writing_try_catch {A : Type} (body : M A) (handler : exn -> M A) :
  asks_before_writing body -> (forall e, only_emits no_write (handler e)) ->
  asks_before_writing (try_catch body handler).
Proof.
  intros Hb Hh w. unfold try_catch.
  destruct (Hb w) as [evs [Ht Hcase]].
  destruct (body w) as [[e|a] w1]; cbn [fst snd] in *.
  - destruct (Hh e w1) as [evs' [Ht' Hq']].
    exists (evs ++ evs')%list. rewrite Ht', Ht, app_assoc. split; [reflexivity|].
    destruct Hcase as [Hall | [pre [post [Heq Hpre]]]].
    + left. now apply Forall_app.
    + right. exists pre, (post ++ evs')%list. subst evs.
      rewrite <- app_assoc. split; [reflexivity | exact Hpre].
  - exists evs. now split.
Qed.

Lemma main_asks_before_writing : asks_before_writing (main E).
Proof.
  unfold main. apply asks_before_writing_try_catch.
  - unfold mainBody.
    repeat (apply asks_before_writing_bind; [harmless_stage | intros ?]).
    apply asks_before_writing_question.
    destruct (is_yes _).
    + harmless_stages. apply only_emits_console_log. exact I.
    + apply only_emits_console_log. exact I.
  - intros e. apply only_emits_emit. reflexivity.
Qed.

(** X2. In every run, each call to [calendar.events.insert] comes after the
    confirmation question has been put to the operator. *)
Theorem writes_follow_the_question (w : World) (pre post : list Event) (e : Event) :
  events_since w (snd (main E w)) = (pre ++ e :: post)%list ->
  is_calendar_write e = true ->
  In (Prompt confirmation_question) pre.
Proof.
  intros Hevs Hwrite.
  destruct (main_asks_before_writing w) as [evs [Ht Hcase]].
  rewrite (events_since_app _ _ _ Ht) in Hevs. subst evs.
  destruct Hcase as [Hall | [pre' [post' [Heq Hpre]]]].
  - rewrite Forall_forall in Hall.
    assert (Hin : In e (pre ++ e :: post)) by (apply in_or_app; right; now left).
    specialize (Hall e Hin). unfold no_write in Hall. congruence.
  - apply app_eq_app in Heq. destruct Heq as [l [[H1 H2] | [H1 H2]]].
    + destruct l as [|x l]; simpl in H2.
      * injection H2 as He _. subst e. discriminate.
      * injection H2 as Hx _. rewrite H1, <- Hx.
        apply in_or_app. right. now left.
    + destruct l as [|x l]; simpl in H2.
      * injection H2 as He _. subst e. discriminate.
      * injection H2 as Hx _.
        rewrite Forall_forall in Hpre.
        assert (Hin : In e pre').
        { rewrite H1, <- Hx. apply in_or_app. right. now left. }
        specialize (Hpre e Hin). unfold no_write in Hpre. congruence.
Qed.

(** *** No call is repeated *)

Lemma filter_none (sel : Event -> bool) (evs : list Event) :
  Forall (fun e => sel e = false) evs -> filter sel evs = [].
Proof.
  induction 1 as [|e evs He _ IH]; simpl; [reflexivity|]. now rewrite He.
Qed.

Lemma at_most_one_none {A : Type} (sel : Event -> bool) (m : M A) :
  only_emits (fun e => sel e = false) m -> at_most_one sel m.
Proof.
  intros H w. destruct (H w) as [evs [Ht Hq]]. exists evs. split; [exact Ht|].
  rewrite (filter_none _ _ Hq). simpl. lia.
Qed.

Lemma at_most_one_bind_l {A B : Type} (sel : Event -> bool) (m : M A) (k : A -> M B) :
  only_emits (fun e => sel e = false) m -> (forall a, at_most_one sel (k a)) ->
  at_most_one sel (bind m k).
Proof.
  intros Hm Hk w. unfold bind.
  destruct (Hm w) as [evs [Ht Hq]].
  destruct (m w) as [[e|a] w1]; cbn [fst snd] in *.
  - exists evs. split; [exact Ht|]. rewrite (filter_none _ _ Hq). simpl. lia.
  - destruct (Hk a w1) as [evs' [Ht' Hn]].
    exists (evs ++ evs')%list. rewrite Ht', Ht, app_assoc. split; [reflexivity|].
    now rewrite filter_app, (filter_none _ _ Hq).
Qed.

Lemma at_most_one_bind_r {A B : Type} (sel : Event -> bool) (m : M A) (k : A -> M B) :
  at_most_one sel m -> (forall a, only_emits (fun e => sel e = false) (k a)) ->
  at_most_one sel (bind m k).
Proof.
  intros Hm Hk w. unfold bind.
  destruct (Hm w) as [evs [Ht Hn]].
  destruct (m w) as [[e|a] w1]; cbn [fst snd] in *.
  - exists evs. now split.
  - destruct (Hk a w1) as [evs' [Ht' Hq]].
    exists (evs ++ evs')%list. rewrite Ht', Ht, app_assoc. split; [reflexivity|].
    now rewrite filter_app, (filter_none _ _ Hq), app_nil_r.
Qed.

Lemma at_most_one_try_catch {A : Type} (sel : Event -> bool) (body : M A)
    (handler : exn -> M A) :
  at_most_one sel body -> (forall e, only_emits (fun e' => sel e' = false) (handler e)) ->
  at_most_one sel (try_catch body handler).
Proof.
  intros Hb Hh w. unfold try_catch.
  destruct (Hb w) as [evs [Ht Hn]].
  destruct (body w) as [[e|a] w1]; cbn [fst snd] in *.
  - destruct (Hh e w1) as [evs' [Ht' Hq]].
    exists (evs ++ evs')%list. rewrite Ht', Ht, app_assoc. split; [reflexivity|].
    now rewrite filter_app, (filter_none _ _ Hq), app_nil_r.
  - exists evs. now split.
Qed.

Lemma getCalendarEvents_reads_once (auth : OAuth2Client) :
  at_most_one is_calendar_read (getCalendarEvents E auth).
Proof.
  intros w. destruct (getCalendarEvents_events E auth w) as [evs [Ht _]].
  exists evs. split; [exact Ht|].
  pose proof (proj2 (getCalendarEvents_window E auth w)) as Hw. cbv zeta in Hw.
  rewrite (events_since_app _ _ _ Ht) in Hw. rewrite Hw. simpl. lia.
Qed.

Lemma getSchedulingSuggestions_asks_once (strategy : Strategy) (events : list value)
    (key : option string) :
  at_most_one is_oracle_call (getSchedulingSuggestions E strategy events key).
Proof.
  destruct key as [key|].
  - intros w.
    destruct (getSchedulingSuggestions_events E strategy events (Some key) w) as [evs [Ht _]].
    exists evs. split; [exact Ht|].
    pose proof (oracle_calls_of_getSchedulingSuggestions E strategy events key w) as Hc.
    rewrite (events_since_app _ _ _ Ht) in Hc. rewrite Hc.
    destruct (map_throwing formatEvent events); [simpl; lia|].
    destruct (key =? ""); simpl; lia.
  - apply at_most_one_none. apply only_emits_throw.
Qed.

Lemma main_reads_once : at_most_one is_calendar_read (main E).
Proof.
  unfold main. apply at_most_one_try_catch; [| intros e; apply only_emits_emit; reflexivity].
  unfold mainBody.
  do 5 (apply at_most_one_bind_l; [harmless_stage | intros ?]).
  apply at_most_one_bind_r; [apply getCalendarEvents_reads_once | intros events].
  harmless_stages.
  apply only_emits_after_question; [reflexivity|].
  destruct (is_yes _).
  - harmless_stages. apply only_emits_console_log. reflexivity.
  - apply only_emits_console_log. reflexivity.
Qed.

Lemma main_asks_once : at_most_one is_oracle_call (main E).
Proof.
  unfold main. apply at_most_one_try_catch; [| intros e; apply only_emits_emit; reflexivity].
  unfold mainBody.
  do 8 (apply at_most_one_bind_l; [harmless_stage | intros ?]).
  apply at_most_one_bind_r; [apply getSchedulingSuggestions_asks_once | intros suggestions].
  harmless_stages.
  apply only_emits_after_question; [reflexivity|].
  destruct (is_yes _).
  - harmless_stages. apply only_emits_console_log. reflexivity.
  - apply only_emits_console_log. reflexivity.
Qed.

(** X3. No run repeats a call: whatever fails, [main] reads the calendar at
    most once and calls the oracle at most once. *)
Theorem no_call_is_repeated (w : World) :
  List.length (filter is_calendar_read (events_since w (snd (main E w)))) <= 1
  /\ List.length (filter is_oracle_call (events_since w (snd (main E w)))) <= 1.
Proof.
  split.
  - destruct (main_reads_once w) as [evs [Ht Hn]].
    now rewrite (events_since_app _ _ _ Ht).
  - destruct (main_asks_once w) as [evs [Ht Hn]].
    now rewrite (events_since_app _ _ _ Ht).
Qed.

(** *** An answer that cannot be used *)






End Gate.

(* ===================================================================== *)
(** ** The reconciler at its edges *)
(* ===================================================================== *)

Section ReconcilerEdges.

Context {P : Platform}.
Variable E : Environment.
Variable auth : OAuth2Client.

Ltac no_write_here := emits_with ltac:(reflexivity).

Lemma call_events_insert_once (p : InsertParams) :
  at_most_one is_calendar_write (call_events_insert E auth p).
Proof.
  intros w. exists [CalendarInsert auth p]. split; [reflexivity | simpl; lia].
Qed.

Lemma createEvent_writes_once (recommendation calendarAction : value) :
  at_most_one is_calendar_write (createEvent E auth recommendation calendarAction).
Proof.
  unfold createEvent, details_field.
  do 10 (apply at_most_one_bind_l; [no_write_here | intros ?]).
  apply at_most_one_bind_r; [apply call_events_insert_once | intros _].
  no_write_here.
Qed.

Lemma processRecommendation_writes_once (recommendation : value) :
  at_most_one is_calendar_write (processRecommendation E auth recommendation).
Proof.
  unfold processRecommendation.
  apply at_most_one_try_catch.
  - unfold dispatchAction.
    do 2 (apply at_most_one_bind_l; [no_write_here | intros ?]).
    destruct (strict_eq_str _ "CREATE"); [apply createEvent_writes_once|].
    apply at_most_one_none. no_write_here.
  - intros e. unfold reportFailure. no_write_here.
Qed.

Lemma for_of_writes (recs : list value) (w : World) :
  exists evs,
    trace (snd (for_of recs (processRecommendation E auth) w)) = (trace w ++ evs)%list
    /\ List.length (filter is_calendar_write evs) <= List.length recs.
Proof.
  revert w. induction recs as [|r recs IH]; intros w; simpl.
  - exists []. rewrite app_nil_r. split; [reflexivity | simpl; lia].
  - unfold bind.
    destruct (processRecommendation_writes_once r w) as [evs [Ht Hn]].
    destruct (processRecommendation E auth r w) as [[e|[]] w1]; cbn [fst snd] in *.
    + exists evs. split; [exact Ht | lia].
    + destruct (IH w1) as [evs' [Ht' Hn']].
      exists (evs ++ evs')%list. rewrite Ht', Ht, app_assoc. split; [reflexivity|].
      rewrite filter_app, length_app. lia.
Qed.

(** The [insert] calls of a run are at most as many as its elements. *)
Lemma writes_bounded_by_length (suggestions : SchedulingSuggestions) (w : World) :
  List.length
    (filter is_calendar_write
       (events_since w (snd (executeCalendarActions E auth suggestions w))))
  <= List.length (recommendations suggestions).
Proof.
  unfold executeCalendarActions, bind, console_log, emit. cbn [fst snd].
  match goal with
  | |- context [for_of ?l ?f ?w0] => destruct (for_of_writes l w0) as [evs [Ht Hn]]
  end.
  rewrite app_record, <- app_assoc in Ht.
  rewrite (events_since_app _ _ _ Ht). simpl. exact Hn.
Qed.

Lemma sent_slots_app (xs ys : list Event) :
  sent_slots (xs ++ ys)%list = (sent_slots xs ++ sent_slots ys)%list.
Proof.
  induction xs as [|e xs IH]; simpl; [reflexivity|].
  destruct (sent_slot e); simpl; now rewrite IH.
Qed.

Lemma sent_slots_world_before (recs : list CalendarRecommendation) (w : World) :
  exists evs,
    trace (world_before E auth recs w (List.length recs)) = (trace w ++ evs)%list
    /\ sent_slots evs = create_slots recs.
Proof.
  revert w. induction recs as [|r recs IH]; intros w; simpl.
  - exists []. now rewrite app_nil_r.
  - destruct (IH (iteration_world E auth r w)) as [evs [Ht Hs]].
    exists (iteration_events E auth r w ++ evs)%list. split.
    + rewrite Ht. simpl. now rewrite app_assoc.
    + rewrite sent_slots_app, Hs. unfold iteration_events, request_for, createParams.
      destruct (action_type (rec_calendarAction r)); try reflexivity.
      simpl. now destruct (insert_answer E auth r w).
Qed.

(** X6. For recommendations of the declared shape, the [insert] calls of a
    run are those of its [CREATE] recommendations, one each and in input
    order, with the recommendation's title, start and end, also when earlier
    calls were rejected; [MOVE] and [DELETE] recommendations send nothing. *)
Theorem every_create_is_attempted_once (recs : list CalendarRecommendation) (w : World) :
  sent_slots
    (events_since w
       (snd (executeCalendarActions E auth {| recommendations := map to_value recs |} w)))
  = create_slots recs.
Proof.
  destruct (executeCalendarActions_typed E auth recs w) as [_ [Hw _]].
  cbv zeta in Hw. rewrite Hw.
  destruct (sent_slots_world_before recs (record (processing_line (List.length recs)) w))
    as [evs [Ht Hs]].
  rewrite app_record, <- app_assoc in Ht.
  rewrite (events_since_app _ _ _ Ht). simpl. exact Hs.
Qed.

(** X7. An element whose action type is a string other than ['CREATE'],
    ['MOVE'] and ['DELETE'] (the comparison is exact, so ['create'] is one)
    gets a warning that names the type, and nothing else: no call to the
    calendar, no exception. *)
Theorem unknown_action_type_is_warned (recommendation calendarAction : value)
    (type : string) (w : World) :
  get_prop recommendation "calendarAction" = inr calendarAction ->
  get_prop calendarAction "type" = inr (VStr type) ->
  type <> "CREATE" -> type <> "MOVE" -> type <> "DELETE" ->
  processRecommendation E auth recommendation w
  = (inr tt, record (Console Warn [AStr ("Unknown action type: " ++ type)]) w).
Proof.
  intros Hca Hty Hc Hm Hd.
  apply String.eqb_neq in Hc, Hm, Hd.
  unfold processRecommendation, dispatchAction, try_catch, bind, prop, lift.
  rewrite Hca, Hty. cbn [strict_eq_str]. rewrite Hc, Hm, Hd. reflexivity.
Qed.

(** X8. Of an element that the [catch] can report on (its [title] is absent
    or prints as text): when its [calendarAction] is missing or [null], or
    its action type is ['CREATE'] and its [details] are missing or [null],
    the iteration throws a [TypeError] before anything is printed or sent;
    the [catch] prints the failure line with that error, and nothing else,
    and the iteration returns normally. *)
Theorem missing_parts_are_reported (recommendation calendarAction : value) (w : World) :
  reportable recommendation = true ->
  get_prop recommendation "calendarAction" = inr calendarAction ->
  nullish calendarAction = true
  \/ (get_prop calendarAction "type" = inr (VStr "CREATE")
      /\ exists details,
           get_prop calendarAction "details" = inr details /\ nullish details = true) ->
  exists line,
    processRecommendation E auth recommendation w
    = (inr tt,
       record (Console Err [AStr ("Failed to process recommendation: " ++ line);
                            AExn TypeError]) w).
Proof.
  intros Hrep Hca Hmissing.
  destruct (reportFailure_reportable recommendation TypeError w Hrep) as [line Hline].
  exists line. rewrite <- Hline.
  unfold processRecommendation, dispatchAction, try_catch, bind at 1, prop, lift.
  rewrite Hca.
  destruct Hmissing as [Hnull | [Hty [details [Hd Hnull]]]].
  - destruct calendarAction; try discriminate; reflexivity.
  - unfold bind at 1. rewrite Hty. cbn [strict_eq_str String.eqb Ascii.eqb Bool.eqb].
    unfold createEvent, details_field, bind, prop, lift. rewrite Hd.
    destruct details; try discriminate; reflexivity.
Qed.

(** X9. [case 'CREATE'] validates nothing and converts only the description:
    the event it sends has the element's [title], [startTime], [endTime] and
    [priority] as they are, present or not, and the description as a
    template literal prints it, so an absent description is sent as the
    text [undefined]. *)
Theorem create_copies_fields_unchecked (recommendation calendarAction details : value)
    (shown described : string) (w : World) :
  get_prop recommendation "calendarAction" = inr calendarAction ->
  get_prop calendarAction "type" = inr (VStr "CREATE") ->
  get_prop calendarAction "details" = inr details ->
  nullish details = false ->
  ToString (get_opt details "title") = Some shown ->
  ToString (get_opt details "description") = Some described ->
  let p :=
    {| calendarId := "primary";
       requestBody :=
         {| summary := get_opt details "title";
            description := described;
            start := {| dateTime := get_opt details "startTime";
                        timeZone := "America/Los_Angeles" |};
            end_ := {| dateTime := get_opt details "endTime";
                       timeZone := "America/Los_Angeles" |};
            extendedProperties_private :=
              {| createdBy := "time-management-system";
                 priority := get_opt recommendation "priority";
                 timestamp := toISOString (Date_now E (clock_reads w)) |} |} |} in
  let asked := [Console Log [AStr ("Creating event: " ++ shown)]; CalendarInsert auth p] in
  let answer :=
    events_insert E (trace w ++ [Console Log [AStr ("Creating event: " ++ shown)]]) auth p in
  (get_opt details "description" = VUndefined -> described = "undefined")
  /\ fst (dispatchAction E auth recommendation w)
     = match answer with
       | Some error => inl error
       | None => inr tt
       end
  /\ events_since w (snd (dispatchAction E auth recommendation w))
     = match answer with
       | Some error => asked
       | None => (asked ++ [Console Log [AStr (created_mark ++ " Created: " ++ shown)]])%list
       end.
Proof.
  intros Hca Hty Hd Hnn Hshown Hdesc. cbv zeta.
  assert (Hf : forall k, get_prop details k = inr (get_opt details k)).
  { intros k. destruct details; try discriminate; reflexivity. }
  assert (Hp : get_prop recommendation "priority" = inr (get_opt recommendation "priority")).
  { destruct recommendation; try discriminate; reflexivity. }
  split.
  { intros Hu. rewrite Hu in Hdesc. now injection Hdesc as <-. }
  unfold dispatchAction, createEvent, details_field, bind, prop, lift, to_string, now,
    call_events_insert, console_log, emit, ret.
  rewrite Hca, Hty. cbn [strict_eq_str String.eqb Ascii.eqb Bool.eqb].
  rewrite Hd, !Hf, Hshown, Hdesc, Hp. unfold lift.
  cbn beta iota zeta delta [fst snd record trace clock_reads].
  destruct (events_insert E _ auth _) as [error|]; cbn [fst snd].
  - split; [reflexivity|].
    apply events_since_app. cbn [trace record]. now rewrite <- app_assoc.
  - split; [reflexivity|].
    apply events_since_app. cbn [trace record]. now rewrite <- !app_assoc.
Qed.

End ReconcilerEdges.

(* ===================================================================== *)
(** ** The stages before the reconciler *)
(* ===================================================================== *)

Section EarlierStages.

Context {P : Platform}.
Variable E : Environment.

(** X10. With a key, events that can be formatted and an oracle whose first
    content block is text that decodes, after the brace is put back, to an
    object with a [recommendations] array, [getSchedulingSuggestions]
    returns that object; it prints the request, makes the one oracle call,
    prints no error, and ignores every block after the first. *)
Theorem first_text_block_is_decoded (strategy : Strategy) (events formatted : list value)
    (key text : string) (others : list ContentBlock) (v : value) (l : list value)
    (w : World) :
  key <> "" ->
  map_throwing formatEvent events = inr formatted ->
  let ctx := context strategy formatted (toISOString (Date_now E (clock_reads w))) in
  messages_create E (trace w ++ [Console Log [AStr ctx]]) key (oracleRequest ctx)
  = inr (TextBlock text :: others) ->
  JSON_parse ("{" ++ text) = Some v ->
  recommendations_field v = Some l ->
  fst (getSchedulingSuggestions E strategy events (Some key) w) = inr v
  /\ events_since w (snd (getSchedulingSuggestions E strategy events (Some key) w))
     = [Console Log [AStr ctx]; OracleCall key (oracleRequest ctx)].
Proof.
  intros Hkey Hfmt ctx Hanswer Hparse Hfield.
  apply String.eqb_neq in Hkey. apply recommendations_field_array in Hfield.
  assert (Hrun : getSchedulingSuggestions E strategy events (Some key) w
                 = (inr v,
                    {| trace := (trace w ++ [Console Log [AStr ctx]])
                                ++ [OracleCall key (oracleRequest ctx)];
                       clock_reads := S (clock_reads w) |})).
  { unfold getSchedulingSuggestions. rewrite Hkey.
    unfold bind at 1. rewrite buildRequest_cases, Hfmt. cbv zeta. fold ctx.
    unfold askOracle, try_catch, bind, call_messages_create. cbn [trace].
    rewrite Hanswer. rewrite parseSuggestions_cases, Hparse, Hfield. reflexivity. }
  rewrite Hrun. cbn [fst snd]. split; [reflexivity|].
  apply events_since_app. cbn [trace]. now rewrite <- app_assoc.
Qed.



Lemma silent_of_nothing_allowed {A : Type} (m : M A) (w : World) :
  only_emits (fun _ => False) m -> trace (snd (m w)) = trace w.
Proof.
  intros H. destruct (H w) as [evs [Ht Hq]].
  destruct Hq as [|e evs He _]; [now rewrite app_nil_r in Ht | contradiction].
Qed.

(** X12. When [token.json] exists, [getAuthenticatedClient] asks nothing,
    calls nothing and writes nothing, whatever the two files contain; a
    token file that is not valid JSON is then an error, not a reason to
    authorize again. *)
Theorem stored_token_is_used_silently (tokenText : string) (w : World) :
  token_json E = Some tokenText ->
  trace (snd (getAuthenticatedClient E w)) = trace w
  /\ (JSON_parse tokenText = None ->
      exists error, fst (getAuthenticatedClient E w) = inl error).
Proof.
  intros Htoken. split.
  - apply silent_of_nothing_allowed.
    unfold getAuthenticatedClient. rewrite Htoken.
    emits_with ltac:(fail).
  - intros Hbad. unfold getAuthenticatedClient. rewrite Htoken.
    destruct (credentials_json E) as [credText|]; [|now eexists].
    unfold bind, parse_json, prop, lift, ret, throw. rewrite Hbad.
    destruct (JSON_parse credText) as [creds|]; [|now eexists].
    destruct (get_prop creds "installed") as [e|installed]; [now eexists|].
    destruct (get_prop installed "client_id") as [e|id]; [now eexists|].
    destruct (get_prop installed "client_secret") as [e|secret]; [now eexists|].
    destruct (get_prop installed "redirect_uris") as [e|uris]; [now eexists|].
    destruct (get_index0 uris) as [e|uri]; now eexists.
Qed.

(** X13. Without [token.json] and with usable credentials,
    [getAuthenticatedClient] prints the authorization address, asks for the
    code and requests the tokens.  If that request fails, the error goes up
    and no file is written; if it succeeds, the tokens are written to
    [token.json] as [JSON.stringify] gives them, and the client returned
    carries them. *)
Theorem first_authorization_stores_the_token
    (credText : string) (creds installed id secret uris uri : value) (w : World) :
  credentials_json E = Some credText ->
  token_json E = None ->
  JSON_parse credText = Some creds ->
  get_prop creds "installed" = inr installed ->
  get_prop installed "client_id" = inr id ->
  get_prop installed "client_secret" = inr secret ->
  get_prop installed "redirect_uris" = inr uris ->
  get_index0 uris = inr uri ->
  let c := {| client_id := id; client_secret := secret;
              redirect_uri := uri; credentials := VObj [] |} in
  let code := authorization_code E in
  let asked :=
    [Console Log [AStr "Authorize this app by visiting this url:";
                  AStr (generateAuthUrl c)];
     Prompt "Enter the code from that page here: "] in
  let result := getAuthenticatedClient E w in
  match getToken E (trace w ++ asked) c code with
  | inl error =>
      fst result = inl error
      /\ events_since w (snd result) = (asked ++ [TokenRequest c code])%list
  | inr tokens =>
      let data := JSON_stringify tokens in
      fst result
      = match writeFileSync E (trace w ++ asked ++ [TokenRequest c code]) "token.json" data with
        | Some error => inl error
        | None => inr (setCredentials c tokens)
        end
      /\ events_since w (snd result)
         = (asked ++ [TokenRequest c code; FileWrite "token.json" data])%list
  end.
Proof.
  intros Hcred Htoken Hparse Hinst Hid Hsecret Huris Huri. cbv zeta.
  set (c := {| client_id := id; client_secret := secret;
               redirect_uri := uri; credentials := VObj [] |}).
  set (w2 := record (Prompt "Enter the code from that page here: ")
               (record (Console Log [AStr "Authorize this app by visiting this url:";
                                     AStr (generateAuthUrl c)]) w)).
  assert (Hrun : getAuthenticatedClient E w
                 = match getToken E (trace w2) c (authorization_code E) with
                   | inl error =>
                       (inl error, record (TokenRequest c (authorization_code E)) w2)
                   | inr tokens =>
                       (match writeFileSync E
                                (trace (record (TokenRequest c (authorization_code E)) w2))
                                "token.json" (JSON_stringify tokens) with
                        | Some error => inl error
                        | None => inr (setCredentials c tokens)
                        end,
                        record (FileWrite "token.json" (JSON_stringify tokens))
                          (record (TokenRequest c (authorization_code E)) w2))
                   end).
  { unfold getAuthenticatedClient, question. rewrite Hcred, Htoken.
    unfold bind, parse_json, prop, lift, ret, emit, call_getToken, call_writeFileSync.
    rewrite Hparse. cbn beta iota. rewrite Hinst. cbn beta iota.
    rewrite Hid. cbn beta iota. rewrite Hsecret. cbn beta iota.
    rewrite Huris. cbn beta iota. rewrite Huri. cbn beta iota zeta.
    fold c. fold w2.
    destruct (getToken E (trace w2) c (authorization_code E)) as [error|tokens];
      [reflexivity|].
    destruct (writeFileSync E (trace (record (TokenRequest c (authorization_code E)) w2))
                "token.json" (JSON_stringify tokens)); reflexivity. }
  rewrite Hrun.
  assert (Hw2 : trace w2
                = (trace w
                   ++ [Console Log [AStr "Authorize this app by visiting this url:";
                                    AStr (generateAuthUrl c)];
                       Prompt "Enter the code from that page here: "])%list).
  { unfold w2. rewrite !app_record, <- app_assoc. reflexivity. }
  rewrite !app_record, Hw2, <- !app_assoc. cbn [app].
  match goal with
  | |- context [getToken E ?h c ?k] =>
      destruct (getToken E h c k) as [error|tokens]; cbn [fst snd]
  end.
  - split; [reflexivity|]. apply events_since_app.
    rewrite app_record, Hw2, <- app_assoc. reflexivity.
  - split; [reflexivity|]. apply events_since_app.
    rewrite !app_record, Hw2, <- !app_assoc. reflexivity.
Qed.

(** X14. A policy file that is missing or that [yaml.parse] rejects stops
    the run at once: after the greeting the only event is the report of that
    error; no credential is read, nothing is asked and no call is made. *)
Theorem unreadable_policy_stops_the_run (error : exn) (w : World) :
  match strategy_yaml E with
  | None => error = Fault "ENOENT"
  | Some text => yaml_parse text = inl error
  end ->
  fst (main E w) = inr tt
  /\ events_since w (snd (main E w))
     = [Console Log [AStr "Starting time management system..."];
        Console Err [AStr "Error:"; AExn error]].
Proof.
  intros H.
  assert (Hrun : main E w
                 = (inr tt,
                    record (Console Err [AStr "Error:"; AExn error])
                      (record (Console Log [AStr "Starting time management system..."]) w))).
  { unfold main, mainBody, try_catch, bind at 1, console_log, emit.
    unfold bind at 1, readFileSync.
    destruct (strategy_yaml E) as [text|].
    - unfold ret, bind at 1, lift. rewrite H. reflexivity.
    - subst error. reflexivity. }
  rewrite Hrun. split; [reflexivity|].
  apply events_since_app. cbn [snd record trace]. now rewrite <- app_assoc.
Qed.

End EarlierStages.

(* ===================================================================== *)
(** ** The reconciler, iteration by iteration *)
(* ===================================================================== *)

Section ReconcilerLoop.

Context {P : Platform}.
Variable E : Environment.
Variable auth : OAuth2Client.

(** Where the iteration on the [k]-th element sits in the loop: [pre] is
    what the loop printed and sent before it, [post] what came after it. *)
Lemma loop_iteration (recs : list value) :
  Forall (fun r => reportable r = true) recs ->
  forall (w : World) (k : nat) (r : value),
    nth_error recs k = Some r ->
    let wk := world_at E auth recs w k in
    exists pre post,
      fst (for_of recs (processRecommendation E auth) w) = inr tt
      /\ trace wk = (trace w ++ pre)%list
      /\ trace (snd (for_of recs (processRecommendation E auth) w))
         = (trace wk ++ events_since wk (snd (processRecommendation E auth r wk)) ++ post)%list
      /\ List.length (outcomes pre) = k
      /\ List.length (outcomes post) = List.length recs - S k.
Proof.
  induction 1 as [|r0 recs Hr0 Hrecs IH]; intros w k r Hk.
  - destruct k; discriminate.
  - destruct (processRecommendation_one_outcome E auth r0 w Hr0) as [Hres [evs0 [o [Ht0 Ho]]]].
    cbv zeta. simpl for_of. unfold bind.
    destruct k as [|k]; simpl in Hk; cbn [world_at].
    + injection Hk as <-.
      destruct (processRecommendation E auth r0 w) as [[e|[]] w1] eqn:Hstep;
        cbn [fst snd] in *; [discriminate|].
      destruct (for_of_one_outcome_each E auth recs w1 Hrecs) as [Hrest [evs' [Ht' Hlen]]].
      exists [], evs'. rewrite app_nil_r.
      split; [exact Hrest|]. split; [reflexivity|]. split.
      * rewrite Ht', Ht0, (events_since_app _ _ _ Ht0), app_assoc. reflexivity.
      * split; [reflexivity|]. simpl. rewrite Hlen. lia.
    + destruct (processRecommendation E auth r0 w) as [[e|[]] w1] eqn:Hstep;
        cbn [fst snd] in *; [discriminate|].
      destruct (IH w1 k r Hk) as [pre [post [Hrest [Hwk [Ht [Hpre Hpost]]]]]].
      exists (evs0 ++ pre)%list, post.
      split; [exact Hrest|]. split; [now rewrite Hwk, Ht0, app_assoc|].
      split; [exact Ht|]. split.
      * rewrite outcomes_app, Ho. simpl. now rewrite Hpre.
      * simpl. exact Hpost.
Qed.

(** The same for a run of [executeCalendarActions]: the [k]-th outcome line
    of the run is the one that the iteration on the [k]-th element prints. *)
Lemma run_iteration (recs : list value) (w : World) (k : nat) (r : value) :
  Forall (fun r => reportable r = true) recs ->
  nth_error recs k = Some r ->
  let result := executeCalendarActions E auth {| recommendations := recs |} w in
  let evs := events_since w (snd result) in
  let wk := world_at E auth recs (record (processing_line (List.length recs)) w) k in
  exists pre post o,
    fst result = inr tt
    /\ trace wk = (trace w ++ pre)%list
    /\ evs = (pre ++ events_since wk (snd (processRecommendation E auth r wk)) ++ post)%list
    /\ List.length (outcomes pre) = k
    /\ List.length (outcomes post) = List.length recs - S k
    /\ outcomes (events_since wk (snd (processRecommendation E auth r wk))) = [o]
    /\ nth_error (outcomes evs) k = Some o.
Proof.
  intros Hrep Hk. cbv zeta.
  unfold executeCalendarActions, bind, console_log, emit. cbn [recommendations fst snd].
  fold (processing_line (List.length recs)).
  set (w0 := record (processing_line (List.length recs)) w).
  destruct (loop_iteration recs Hrep w0 k r Hk)
    as [pre [post [Hres [Hwk [Ht [Hpre Hpost]]]]]].
  set (wk := world_at E auth recs w0 k) in *.
  assert (Hin : In r recs) by (eapply nth_error_In; exact Hk).
  rewrite Forall_forall in Hrep.
  destruct (processRecommendation_one_outcome E auth r wk (Hrep r Hin))
    as [_ [seg [o [Hseg Ho]]]].
  rewrite (events_since_app _ _ _ Hseg) in Ht.
  exists (processing_line (List.length recs) :: pre), post, o.
  rewrite (events_since_app _ _ _ Hseg).
  assert (Hwk' : trace wk = (trace w ++ processing_line (List.length recs) :: pre)%list).
  { rewrite Hwk. unfold w0. rewrite app_record, <- app_assoc. reflexivity. }
  assert (Hevs : events_since w (snd (for_of recs (processRecommendation E auth) w0))
                 = (processing_line (List.length recs) :: pre ++ seg ++ post)%list).
  { apply events_since_app. rewrite Ht, Hwk', <- app_assoc. reflexivity. }
  split; [exact Hres|]. split; [exact Hwk'|]. split; [exact Hevs|].
  assert (Hnone : outcome_of (processing_line (List.length recs)) = None)
    by apply outcome_of_processing.
  split; [cbn [outcomes]; now rewrite Hnone|].
  split; [exact Hpost|]. split; [exact Ho|].
  rewrite Hevs. cbn [outcomes]. rewrite Hnone, !outcomes_app, Ho.
  rewrite nth_error_app2 by lia. rewrite Hpre, Nat.sub_diag. reflexivity.
Qed.

(** C4, as the code has it. For every list of elements that the [catch] can
    report on, which includes every recommendation of the declared shape,
    [executeCalendarActions] goes through the whole list and leaves one
    outcome line per element on the console, in input order: the [k]-th
    outcome line is the line that the iteration on the [k]-th element
    prints, after the [k] lines of the elements before it.  The function
    resolves to [undefined], so no report reaches its caller. *)
Theorem one_outcome_line_per_recommendation (recs : list value) (w : World) :
  Forall (fun r => reportable r = true) recs ->
  let result := executeCalendarActions E auth {| recommendations := recs |} w in
  let evs := events_since w (snd result) in
  fst result = inr tt
  /\ List.length (outcomes evs) = List.length recs
  /\ forall k r, nth_error recs k = Some r ->
       let wk := world_at E auth recs (record (processing_line (List.length recs)) w) k in
       let iteration := events_since wk (snd (processRecommendation E auth r wk)) in
       exists pre post o,
         trace wk = (trace w ++ pre)%list
         /\ evs = (pre ++ iteration ++ post)%list
         /\ List.length (outcomes pre) = k
         /\ outcomes iteration = [o]
         /\ nth_error (outcomes evs) k = Some o.
Proof.
  intros Hrep. cbv zeta.
  destruct (one_outcome_line_each E auth recs w Hrep) as [Hres [Hlen _]].
  split; [exact Hres|]. split; [exact Hlen|].
  intros k r Hk.
  destruct (run_iteration recs w k r Hrep Hk)
    as [pre [post [o [_ [Hwk [Hevs [Hpre [_ [Ho Hnth]]]]]]]]].
  exists pre, post, o. repeat split; assumption.
Qed.

(** *** Lists of recommendations of the declared shape *)

Lemma reportable_recommendations (recs : list CalendarRecommendation) :
  Forall (fun r => reportable r = true) (map to_value recs).
Proof.
  apply Forall_forall. intros v Hv. apply in_map_iff in Hv.
  destruct Hv as [r [<- _]]. apply to_value_reportable.
Qed.

(** Where the iteration on the [k]-th recommendation sits in a run. *)
Lemma run_iteration_typed (recs : list CalendarRecommendation) (w : World) (k : nat)
    (r : CalendarRecommendation) :
  nth_error recs k = Some r ->
  let elements := map to_value recs in
  let result := executeCalendarActions E auth {| recommendations := elements |} w in
  let evs := events_since w (snd result) in
  let wk := world_at E auth elements (record (processing_line (List.length recs)) w) k in
  exists pre post o,
    fst result = inr tt
    /\ trace wk = (trace w ++ pre)%list
    /\ evs = (pre ++ events_since wk (snd (processRecommendation E auth (to_value r) wk))
              ++ post)%list
    /\ List.length (outcomes pre) = k
    /\ List.length (outcomes post) = List.length recs - S k
    /\ outcomes (events_since wk (snd (processRecommendation E auth (to_value r) wk))) = [o]
    /\ nth_error (outcomes evs) k = Some o.
Proof.
  intros Hk.
  pose proof (run_iteration (map to_value recs) w k (to_value r)
                (reportable_recommendations recs) (map_nth_error to_value k recs Hk)) as H.
  rewrite length_map in H. exact H.
Qed.

(** C5. For every recommendation whose action type is [MOVE] or [DELETE],
    at any position of a list of recommendations given to
    [executeCalendarActions]: the run returns normally, and the iteration on
    that recommendation returns normally after one console line, the one
    that says the action is not implemented; it makes no call to the
    calendar.  That line is the recommendation's outcome line, the [k]-th of
    the run, and reads as [Skipped("not supported")]. *)
Theorem unsupported_action_is_skipped (recs : list CalendarRecommendation) (w : World)
    (k : nat) (r : CalendarRecommendation) :
  nth_error recs k = Some r ->
  action_type (rec_calendarAction r) = MOVE \/ action_type (rec_calendarAction r) = DELETE ->
  let elements := map to_value recs in
  let result := executeCalendarActions E auth {| recommendations := elements |} w in
  let evs := events_since w (snd result) in
  let wk := world_at E auth elements (record (processing_line (List.length recs)) w) k in
  let line :=
    Console Log [AStr (not_implemented_line (type_text (action_type (rec_calendarAction r))))] in
  fst result = inr tt
  /\ nth_error (outcomes evs) k = Some (Skipped "not supported")
  /\ processRecommendation E auth (to_value r) wk = (inr tt, record line wk)
  /\ is_calendar_write line = false
  /\ exists pre post,
       trace wk = (trace w ++ pre)%list
       /\ evs = (pre ++ [line] ++ post)%list
       /\ List.length (outcomes pre) = k
       /\ List.length (outcomes post) = List.length recs - S k.
Proof.
  intros Hk Hkind. cbv zeta.
  assert (Hrun : forall w0,
             processRecommendation E auth (to_value r) w0
             = (inr tt,
                record (Console Log
                          [AStr (not_implemented_line
                                   (type_text (action_type (rec_calendarAction r))))]) w0)).
  { clear Hk. intros w0. destruct r as [pr ti re rs [ty d]]. cbn in Hkind.
    destruct Hkind as [-> | ->]; reflexivity. }
  destruct (run_iteration_typed recs w k r Hk)
    as [pre [post [o [Hres [Hwk [Hevs [Hpre [Hpost [Ho Hnth]]]]]]]]].
  rewrite Hrun in Hevs, Ho. cbn [snd] in Hevs, Ho.
  rewrite (events_since_app _ _ _ (app_record _ _)) in Hevs, Ho.
  assert (Hout : o = Skipped "not supported").
  { destruct Hkind as [Hty | Hty]; rewrite Hty in Ho; now injection Ho as <-. }
  subst o.
  split; [exact Hres|]. split; [exact Hnth|]. split; [apply Hrun|].
  split; [reflexivity|].
  exists pre, post. repeat split; assumption.
Qed.

(** C6. For every [CREATE] recommendation, at any position of a list of
    recommendations given to [executeCalendarActions], against a calendar
    write that always succeeds: the run returns normally and the iteration
    on that recommendation consists of the [Creating] line, exactly one
    [insert] call and the [Created] line.  The event sent has the
    recommendation's title, start and end and carries the origin marker, the
    recommendation's priority and the time of the call; the [Created] line
    is the recommendation's outcome line, the [k]-th of the run, and reads
    as [Applied]. *)
Theorem create_is_applied (recs : list CalendarRecommendation) (w : World) (k : nat)
    (r : CalendarRecommendation) :
  nth_error recs k = Some r ->
  action_type (rec_calendarAction r) = CREATE ->
  (forall history a p, events_insert E history a p = None) ->
  let elements := map to_value recs in
  let result := executeCalendarActions E auth {| recommendations := elements |} w in
  let evs := events_since w (snd result) in
  let wk := world_at E auth elements (record (processing_line (List.length recs)) w) k in
  let d := action_details (rec_calendarAction r) in
  fst result = inr tt
  /\ nth_error (outcomes evs) k = Some Applied
  /\ exists pre post p,
       trace wk = (trace w ++ pre)%list
       /\ events_since wk (snd (processRecommendation E auth (to_value r) wk))
          = [creating_line r; CalendarInsert auth p; created_line r]
       /\ evs = (pre ++ [creating_line r; CalendarInsert auth p; created_line r]
                 ++ post)%list
       /\ List.length (outcomes pre) = k
       /\ List.length (outcomes post) = List.length recs - S k
       /\ calendarId p = "primary"
       /\ summary (requestBody p) = VStr (d_title d)
       /\ dateTime (start (requestBody p)) = VStr (d_startTime d)
       /\ dateTime (end_ (requestBody p)) = VStr (d_endTime d)
       /\ createdBy (extendedProperties_private (requestBody p)) = "time-management-system"
       /\ priority (extendedProperties_private (requestBody p))
          = VStr (priority_text (rec_priority r))
       /\ timestamp (extendedProperties_private (requestBody p))
          = toISOString (Date_now E (clock_reads wk)).
Proof.
  intros Hk Hty Hok. cbv zeta.
  destruct (run_iteration_typed recs w k r Hk)
    as [pre [post [o [Hres [Hwk [Hevs [Hpre [Hpost [Ho Hnth]]]]]]]]].
  match type of Hwk with
  | trace ?wk = _ =>
      destruct (create_iteration E auth r wk Hty Hok) as [_ [Hout [p [Hseg Hp]]]]
  end.
  cbv zeta in Hout, Hseg, Hp. rewrite Hseg in Hevs. rewrite Hout in Ho.
  injection Ho as <-.
  split; [exact Hres|]. split; [exact Hnth|].
  exists pre, post, p.
  split; [exact Hwk|]. split; [exact Hseg|]. split; [exact Hevs|].
  split; [exact Hpre|]. split; [exact Hpost|]. exact Hp.
Qed.

(** C10. For every [CREATE] recommendation, at any position of a list of
    recommendations given to [executeCalendarActions], whatever the calendar
    answers: the run sends an event for it, and that event has the
    recommendation's [startTime] and [endTime] strings as they are, whatever
    offset they name, and the time zone ['America/Los_Angeles'] on both its
    start and its end; no event of the run carries another zone. *)
Theorem create_uses_fixed_time_zone (recs : list CalendarRecommendation) (w : World)
    (k : nat) (r : CalendarRecommendation) :
  nth_error recs k = Some r ->
  action_type (rec_calendarAction r) = CREATE ->
  let elements := map to_value recs in
  let result := executeCalendarActions E auth {| recommendations := elements |} w in
  let evs := events_since w (snd result) in
  let wk := world_at E auth elements (record (processing_line (List.length recs)) w) k in
  let d := action_details (rec_calendarAction r) in
  Forall fixed_time_zone evs
  /\ exists pre post p last,
       trace wk = (trace w ++ pre)%list
       /\ events_since wk (snd (processRecommendation E auth (to_value r) wk))
          = [creating_line r; CalendarInsert auth p; last]
       /\ evs = (pre ++ [creating_line r; CalendarInsert auth p; last] ++ post)%list
       /\ List.length (outcomes pre) = k
       /\ summary (requestBody p) = VStr (d_title d)
       /\ start (requestBody p)
          = {| dateTime := VStr (d_startTime d); timeZone := "America/Los_Angeles" |}
       /\ end_ (requestBody p)
          = {| dateTime := VStr (d_endTime d); timeZone := "America/Los_Angeles" |}.
Proof.
  intros Hk Hty. cbv zeta.
  split; [apply inserts_use_fixed_time_zone|].
  destruct (run_iteration_typed recs w k r Hk)
    as [pre [post [o [Hres [Hwk [Hevs [Hpre [Hpost [Ho Hnth]]]]]]]]].
  match type of Hwk with
  | trace ?wk = _ =>
      assert (Hseg : events_since wk (snd (processRecommendation E auth (to_value r) wk))
                     = iteration_events E auth r wk)
        by (rewrite processRecommendation_typed; now apply events_since_app);
      exists pre, post, (request_for E r wk)
  end.
  rewrite Hseg in Hevs. unfold iteration_events in Hseg, Hevs. rewrite Hty in Hseg, Hevs.
  eexists.
  split; [exact Hwk|]. split; [exact Hseg|]. split; [exact Hevs|].
  split; [exact Hpre|]. repeat split.
Qed.

(** *** Every iteration, also when the loop is cut short *)

Lemma for_of_iterations (recs : list value) (w : World) :
  trace (snd (for_of recs (processRecommendation E auth) w))
  = (trace w ++ List.concat (iterations E auth recs w))%list.
Proof.
  revert w. induction recs as [|r recs IH]; intros w; simpl.
  - now rewrite app_nil_r.
  - unfold bind.
    destruct (processRecommendation_events E auth r w) as [evs [Ht _]].
    rewrite (events_since_app _ _ _ Ht).
    destruct (processRecommendation E auth r w) as [[e|[]] w1]; cbn [fst snd] in *.
    + simpl. now rewrite app_nil_r.
    + rewrite IH, Ht, <- app_assoc. reflexivity.
Qed.

Lemma length_iterations (recs : list value) (w : World) :
  List.length (iterations E auth recs w) <= List.length recs.
Proof.
  revert w. induction recs as [|r recs IH]; intros w; simpl; [lia|].
  destruct (fst (processRecommendation E auth r w)); simpl; [lia|].
  specialize (IH (snd (processRecommendation E auth r w))). lia.
Qed.

Lemma nth_iterations (recs : list value) (w : World) (k : nat) (seg : list Event) :
  nth_error (iterations E auth recs w) k = Some seg ->
  let wk := world_at E auth recs w k in
  exists r,
    nth_error recs k = Some r
    /\ trace wk = (trace w ++ List.concat (firstn k (iterations E auth recs w)))%list
    /\ seg = events_since wk (snd (processRecommendation E auth r wk)).
Proof.
  revert w k. induction recs as [|r recs IH]; intros w k Hk; simpl in Hk.
  - destruct k; discriminate.
  - destruct k as [|k]; simpl in Hk; cbv zeta; cbn [world_at].
    + injection Hk as <-. exists r. simpl. now rewrite app_nil_r.
    + destruct (processRecommendation_events E auth r w) as [evs [Ht _]].
      simpl iterations.
      destruct (fst (processRecommendation E auth r w)) eqn:Hres;
        [destruct k; discriminate|].
      destruct (IH _ k Hk) as [r' [Hr' [Hwk Hseg]]].
      exists r'. split; [exact Hr'|]. split; [|exact Hseg].
      rewrite Hwk, Ht. simpl. rewrite (events_since_app _ _ _ Ht), <- app_assoc.
      reflexivity.
Qed.

(** X5. No write is retried.  For any list of elements, well formed or
    not, and however the calendar answers, the events of
    [executeCalendarActions] are the [Processing] line followed by the
    events of one iteration per element, in input order, up to the element
    at which the loop stops if it is cut short; the iteration on an element
    makes at most one [insert] call, so the run makes at most as many
    [insert] calls as the list has elements. *)
Theorem no_write_is_retried (suggestions : SchedulingSuggestions) (w : World) :
  let recs := recommendations suggestions in
  let heading := processing_line (List.length recs) in
  let segs := iterations E auth recs (record heading w) in
  let evs := events_since w (snd (executeCalendarActions E auth suggestions w)) in
  evs = heading :: List.concat segs
  /\ List.length (filter is_calendar_write evs) <= List.length recs
  /\ List.length segs <= List.length recs
  /\ forall k seg, nth_error segs k = Some seg ->
       let wk := world_at E auth recs (record heading w) k in
       exists r,
         nth_error recs k = Some r
         /\ trace wk = (trace w ++ heading :: List.concat (firstn k segs))%list
         /\ seg = events_since wk (snd (processRecommendation E auth r wk))
         /\ List.length (filter is_calendar_write seg) <= 1.
Proof.
  cbv zeta. split; [|split; [|split]].
  - unfold executeCalendarActions, bind, console_log, emit. cbn [fst snd].
    fold (processing_line (List.length (recommendations suggestions))).
    apply events_since_app.
    rewrite for_of_iterations, app_record, <- app_assoc. reflexivity.
  - apply writes_bounded_by_length.
  - apply length_iterations.
  - intros k seg Hk.
    destruct (nth_iterations _ _ _ _ Hk) as [r [Hr [Hwk Hseg]]].
    exists r. split; [exact Hr|]. split.
    + rewrite Hwk, app_record, <- app_assoc. reflexivity.
    + split; [exact Hseg|].
      match type of Hwk with
      | trace ?wk = _ =>
          destruct (processRecommendation_writes_once E auth r wk) as [evs [Ht Hn]]
      end.
      now rewrite Hseg, (events_since_app _ _ _ Ht).
Qed.

End ReconcilerLoop.

(* ===================================================================== *)
(** ** From the calendar read to the request *)
(* ===================================================================== *)

Section Snapshot.

Context {P : Platform}.
Variable E : Environment.

Lemma formatEvent_formatted (event : value) :
  nullish event = false -> formatEvent event = inr (formatted event).
Proof.
  destruct event; intros Hn; try discriminate; reflexivity.
Qed.

Lemma map_throwing_formatted (listed : list value) :
  Forall (fun event => nullish event = false) listed ->
  map_throwing formatEvent listed = inr (map formatted listed).
Proof.
  induction 1 as [|event listed Hn _ IH]; simpl; [reflexivity|].
  now rewrite (formatEvent_formatted _ Hn), IH.
Qed.

Lemma getCalendarEvents_answered (auth : OAuth2Client) (w : World)
    (items : option (list value)) :
  let asked := windowParams (Date_now E (clock_reads w)) (Date_now E (S (clock_reads w))) in
  events_list E (trace w) auth asked = inr items ->
  getCalendarEvents E auth w
  = (inr items, {| trace := trace w ++ [CalendarList auth asked];
                   clock_reads := S (S (clock_reads w)) |}).
Proof.
  cbv zeta. unfold getCalendarEvents, try_catch, bind, now, call_events_list, windowParams, days.
  cbn [trace clock_reads]. intros ->. reflexivity.
Qed.

(** A step of a [try] block that returns hands over to the rest of the
    block. *)
Lemma try_catch_bind_ok {A B : Type} (m : M A) (k : A -> M B) (h : exn -> M B)
    (w : World) (a : A) (w' : World) :
  m w = (inr a, w') -> try_catch (bind m k) h w = try_catch (k a) h w'.
Proof.
  unfold try_catch, bind. now intros ->.
Qed.

(** What runs after a step of a [try] block, the handler included, only adds
    to what the step left. *)
Lemma after_a_step {A B : Type} (Q : Event -> Prop) (m : M A) (k : A -> M B)
    (h : exn -> M B) (w : World) :
  (forall a, only_emits Q (k a)) -> (forall e, only_emits Q (h e)) ->
  exists post,
    trace (snd (try_catch (bind m k) h w)) = (trace (snd (m w)) ++ post)%list
    /\ Forall Q post.
Proof.
  intros Hk Hh. unfold try_catch at 1, bind at 1.
  destruct (m w) as [[e|a] w1]; cbn [snd].
  - apply Hh.
  - apply (only_emits_try_catch Q (k a) h (Hk a) Hh w1).
Qed.

(** C9, as the code has it. A run that gets as far as the oracle (its
    policy is read, its client is authenticated, the calendar read answers,
    no listed event is [null] and the key is there) reads the calendar once,
    for the window from 30 days before to 7 days after the clock readings,
    and calls the oracle once.  The snapshot in that request is what
    [events.map] makes of the answer of the read: it has one
    (summary, start, end) triple per listed event, at the position of that
    event.  Nothing is removed: two listed events with the same triple give
    that triple twice. *)
Theorem snapshot_is_the_listing (w w2 : World) (text : string) (strategy : Strategy)
    (auth : OAuth2Client) (items : option (list value)) (key : string) :
  strategy_yaml E = Some text ->
  yaml_parse text = inr strategy ->
  getAuthenticatedClient E
    (record (Console Log [AStr "Strategy loaded"])
       (record (Console Log [AStr "Starting time management system..."]) w))
  = (inr auth, w2) ->
  events_list E (trace w2) auth
    (windowParams (Date_now E (clock_reads w2)) (Date_now E (S (clock_reads w2))))
  = inr items ->
  Forall (fun event => nullish event = false)
    (match items with Some l => l | None => [] end) ->
  ANTHROPIC_API_KEY E = Some key ->
  (key =? "") = false ->
  let asked := windowParams (Date_now E (clock_reads w2)) (Date_now E (S (clock_reads w2))) in
  let listed := match items with Some l => l | None => [] end in
  let currentTime := toISOString (Date_now E (S (S (clock_reads w2)))) in
  let evs := events_since w (snd (main E w)) in
  exists snapshot,
    filter is_calendar_read evs = [CalendarList auth asked]
    /\ filter is_oracle_call evs
       = [OracleCall key (oracleRequest (context strategy snapshot currentTime))]
    /\ map_throwing formatEvent listed = inr snapshot
    /\ List.length snapshot = List.length listed
    /\ forall k event, nth_error listed k = Some event ->
         nth_error snapshot k = Some (formatted event).
Proof.
  intros Hy Hparse Hauth Hlist Hnn Hkey Hne. cbv zeta.
  pose proof (map_throwing_formatted _ Hnn) as Hsnap.
  exists (map formatted (match items with Some l => l | None => [] end)).
  assert (Hrun : exists authEvs middle askEvs post,
             trace (snd (main E w))
             = (trace w ++ authEvs
                ++ [CalendarList auth
                      (windowParams (Date_now E (clock_reads w2))
                         (Date_now E (S (clock_reads w2))))]
                ++ middle ++ askEvs ++ post)%list
             /\ Forall (fun e => is_calendar_read e = false /\ is_oracle_call e = false)
                  (authEvs ++ middle ++ post)
             /\ Forall asking_event askEvs
             /\ filter is_oracle_call askEvs
                = [OracleCall key
                     (oracleRequest
                        (context strategy
                           (map formatted (match items with Some l => l | None => [] end))
                           (toISOString (Date_now E (S (S (clock_reads w2)))))))]).
  { unfold main, mainBody.
    erewrite try_catch_bind_ok by reflexivity.
    rewrite Hy. erewrite try_catch_bind_ok by reflexivity.
    rewrite Hparse. erewrite try_catch_bind_ok by reflexivity.
    erewrite try_catch_bind_ok by reflexivity.
    erewrite try_catch_bind_ok by exact Hauth.
    erewrite try_catch_bind_ok by (apply getCalendarEvents_answered; exact Hlist).
    erewrite try_catch_bind_ok by reflexivity.
    erewrite try_catch_bind_ok by reflexivity.
    rewrite Hkey.
    destruct (getAuthenticatedClient_events E
                (record (Console Log [AStr "Strategy loaded"])
                   (record (Console Log [AStr "Starting time management system..."]) w)))
      as [authEvs [Hw2 HauthEvs]].
    rewrite Hauth in Hw2. cbn [snd] in Hw2.
    match goal with
    | |- context [try_catch (bind (getSchedulingSuggestions E ?s ?l ?k0) ?K) ?h ?w0] =>
        destruct (after_a_step
                    (fun e => is_calendar_read e = false /\ is_oracle_call e = false)
                    (getSchedulingSuggestions E s l k0) K h w0) as [post [Hpost Hq]];
        [ | | destruct (getSchedulingSuggestions_events E s l k0 w0) as [askEvs [Hask HaskEvs]];
              pose proof (oracle_calls_of_getSchedulingSuggestions E s l key w0) as Hcall ]
    end.
    - intros suggestions. harmless_stages.
      apply only_emits_after_question; [split; reflexivity|].
      destruct (is_yes _).
      + harmless_stages. apply only_emits_console_log. split; reflexivity.
      + apply only_emits_console_log. split; reflexivity.
    - intros e. apply only_emits_emit. split; reflexivity.
    - rewrite (events_since_app _ _ _ Hask), Hsnap, Hne in Hcall.
      cbn [clock_reads record] in Hcall.
      rewrite Hpost, Hask. cbn [trace record]. rewrite Hw2, !app_record.
      eexists (_ :: _ :: authEvs), [_; _], askEvs, post.
      split; [rewrite <- !app_assoc; reflexivity|].
      split; [|split; [exact HaskEvs | exact Hcall]].
      repeat constructor.
      apply Forall_app. split.
      + eapply Forall_impl; [|exact HauthEvs]. kind_allowed.
      + repeat constructor. exact Hq. }
  destruct Hrun as [authEvs [middle [askEvs [post [Ht [Hq [Hasking Hcall]]]]]]].
  rewrite (events_since_app _ _ _ Ht).
  apply Forall_app in Hq. destruct Hq as [Hq1 Hq2].
  apply Forall_app in Hq2. destruct Hq2 as [Hq2 Hq3].
  assert (Hread : forall l, Forall (fun e => is_calendar_read e = false
                                              /\ is_oracle_call e = false) l ->
                            filter is_calendar_read l = []).
  { intros l Hl. apply filter_none. eapply Forall_impl; [|exact Hl]. now intros e [He _]. }
  assert (Hask : forall l, Forall (fun e => is_calendar_read e = false
                                             /\ is_oracle_call e = false) l ->
                           filter is_oracle_call l = []).
  { intros l Hl. apply filter_none. eapply Forall_impl; [|exact Hl]. now intros e [_ He]. }
  assert (Hasking' : filter is_calendar_read askEvs = []).
  { apply filter_none. eapply Forall_impl; [|exact Hasking].
    intros e He. destruct e; simpl in He |- *; first [reflexivity | contradiction]. }
  split; [|split; [|split; [exact Hsnap | split]]].
  - rewrite !filter_app, (Hread _ Hq1), (Hread _ Hq2), (Hread _ Hq3), Hasking'.
    reflexivity.
  - rewrite !filter_app, (Hask _ Hq1), (Hask _ Hq2), (Hask _ Hq3), Hcall.
    reflexivity.
  - apply length_map.
  - intros k event Hk. rewrite nth_error_map, Hk. reflexivity.
Qed.

End Snapshot.

(* ===================================================================== *)
(** ** The theorems on the reference platform *)
(* ===================================================================== *)

Module Runs.

Import Reference.
Import Example.

Lemma failure_is_isolated_witness :
  let E := run_with (Some "sk-1") "y" [] (rejects "Book Club") in
  let result := executeCalendarActions E auth {| recommendations := map to_value week |}
                  start_of_run in
  let outs := outcomes (events_since start_of_run (snd result)) in
  fst result = inr tt
  /\ List.length outs = List.length week
  /\ nth_error outs 1 = Some (Failed (Fault "403 Forbidden"))
  /\ forall k, k < List.length week -> k <> 1 ->
       nth_error outs k = Some Applied
       \/ nth_error outs k = Some (Skipped "not supported").
Proof.
  apply (failure_is_isolated (run_with (Some "sk-1") "y" [] (rejects "Book Club"))
           auth week start_of_run 1 (Fault "403 Forbidden")).
  - simpl. lia.
  - intros k Hk. simpl in Hk.
    destruct k as [|[|[|[|k]]]]; [reflexivity | reflexivity | reflexivity | reflexivity | lia].
Defined.

Lemma malformed_output_is_rejected_witness :
  let result := parseSuggestions reply_without_field start_of_run in
  fst result = inl MalformedOutput
  /\ exists cause,
       events_since start_of_run (snd result)
       = [Console Err [AStr "Failed to parse Claude response:"; AExn cause];
          Console Log [AStr "Raw response:"; AStr reply_without_field]].
Proof.
  apply (malformed_output_is_rejected reply_without_field start_of_run).
  right. exists (VObj [("items", VArr [])]). split; reflexivity.
Defined.

(** The brace is put back whatever the reply looks like: a reply that is a
    complete document of the expected shape is decoded with a second brace
    in front of it and is rejected. *)
Example complete_document_is_malformed :
  JSON_parse ("{" ++ reply_text mixed_batch)
  = Some (VObj [("recommendations", VArr mixed_batch)])
  /\ fst (parseSuggestions ("{" ++ reply_text mixed_batch) start_of_run)
     = inl MalformedOutput.
Proof.
  split; vm_compute; reflexivity.
Qed.

Lemma every_element_is_returned_witness :
  parseSuggestions (reply_text mixed_batch) start_of_run
  = (inr (VObj [("recommendations", VArr mixed_batch)]), start_of_run)
  /\ recommendations_of (VObj [("recommendations", VArr mixed_batch)]) start_of_run
     = (inr mixed_batch, start_of_run).
Proof.
  apply (every_element_is_returned (reply_text mixed_batch)
           (VObj [("recommendations", VArr mixed_batch)]) mixed_batch start_of_run).
  - vm_compute. reflexivity.
  - reflexivity.
Defined.

(** Against C1 as stated: the element with the unknown priority is in the
    parser's result, between the two valid ones, and for the element whose
    start equals its end the run goes on to create the calendar event. *)
Lemma invalid_elements_reach_the_reconciler :
  fst (parseSuggestions (reply_text mixed_batch) start_of_run)
  = inr (VObj [("recommendations", VArr [to_value light_workout; urgent_errand;
                                          to_value book_club])])
  /\ map (fun e => match e with
                   | CalendarInsert _ p =>
                       (dateTime (start (requestBody p)), dateTime (end_ (requestBody p)))
                   | _ => (VUndefined, VUndefined)
                   end)
       (filter is_calendar_write
          (trace (snd (main (run_with (Some "sk-1") "y" [zero_length] accepts)
                         start_of_run))))
     = [(VStr "2024-01-03T08:00:00Z", VStr "2024-01-03T08:00:00Z")].
Proof.
  split; vm_compute; reflexivity.
Qed.

(** Against C4 as stated: a run whose one recommendation is applied and a
    run whose one recommendation fails hand the same value, [undefined], to
    their caller; the outcome is on the console only. *)
Lemma no_report_is_returned :
  let applied := executeCalendarActions (run_with (Some "sk-1") "y" [] accepts) auth
                   {| recommendations := [to_value light_workout] |} start_of_run in
  let failed := executeCalendarActions (run_with (Some "sk-1") "y" [] (rejects "Light workout"))
                  auth {| recommendations := [to_value light_workout] |} start_of_run in
  fst applied = inr tt
  /\ fst failed = inr tt
  /\ outcomes (trace (snd applied)) = [Applied]
  /\ outcomes (trace (snd failed)) = [Failed (Fault "403 Forbidden")].
Proof.
  repeat split; vm_compute; reflexivity.
Qed.

Lemma one_outcome_line_per_recommendation_witness :
  let E := run_with (Some "sk-1") "y" [] (rejects "Book Club") in
  let recs := [to_value light_workout; urgent_errand; to_value book_club;
               to_value move_dinner] in
  let result := executeCalendarActions E auth {| recommendations := recs |} start_of_run in
  let evs := events_since start_of_run (snd result) in
  fst result = inr tt
  /\ List.length (outcomes evs) = List.length recs
  /\ forall k r, nth_error recs k = Some r ->
       let wk := world_at E auth recs (record (processing_line 4) start_of_run) k in
       let iteration := events_since wk (snd (processRecommendation E auth r wk)) in
       exists pre post o,
         trace wk = (trace start_of_run ++ pre)%list
         /\ evs = (pre ++ iteration ++ post)%list
         /\ List.length (outcomes pre) = k
         /\ outcomes iteration = [o]
         /\ nth_error (outcomes evs) k = Some o.
Proof.
  apply (one_outcome_line_per_recommendation
           (run_with (Some "sk-1") "y" [] (rejects "Book Club")) auth
           [to_value light_workout; urgent_errand; to_value book_club;
            to_value move_dinner] start_of_run).
  repeat constructor.
Defined.

(** An element that is [null] is outside the declared shape: its iteration
    throws inside the [catch] itself, which ends the loop before the
    elements after it. *)
Example null_element_ends_the_loop :
  let result := executeCalendarActions (run_with (Some "sk-1") "y" [] accepts) auth
                  {| recommendations := [VNull; to_value light_workout] |} start_of_run in
  fst result = inl TypeError
  /\ trace (snd result) = [processing_line 2].
Proof.
  split; vm_compute; reflexivity.
Qed.

Lemma unsupported_action_is_skipped_witness :
  let E := run_with (Some "sk-1") "y" [] (rejects "Book Club") in
  let elements := map to_value week in
  let result := executeCalendarActions E auth {| recommendations := elements |}
                  start_of_run in
  let evs := events_since start_of_run (snd result) in
  let wk := world_at E auth elements (record (processing_line 4) start_of_run) 2 in
  let line := Console Log [AStr "Move event functionality not implemented yet"] in
  fst result = inr tt
  /\ nth_error (outcomes evs) 2 = Some (Skipped "not supported")
  /\ processRecommendation E auth (to_value move_dinner) wk = (inr tt, record line wk)
  /\ is_calendar_write line = false
  /\ exists pre post,
       trace wk = (trace start_of_run ++ pre)%list
       /\ evs = (pre ++ [line] ++ post)%list
       /\ List.length (outcomes pre) = 2
       /\ List.length (outcomes post) = 1.
Proof.
  apply (unsupported_action_is_skipped
           (run_with (Some "sk-1") "y" [] (rejects "Book Club")) auth
           week start_of_run 2 move_dinner).
  - reflexivity.
  - left. reflexivity.
Defined.

Lemma create_is_applied_witness :
  let E := run_with (Some "sk-1") "y" [] accepts in
  let elements := map to_value [move_dinner; light_workout] in
  let result := executeCalendarActions E auth {| recommendations := elements |}
                  start_of_run in
  let evs := events_since start_of_run (snd result) in
  let wk := world_at E auth elements (record (processing_line 2) start_of_run) 1 in
  fst result = inr tt
  /\ nth_error (outcomes evs) 1 = Some Applied
  /\ exists pre post p,
       trace wk = (trace start_of_run ++ pre)%list
       /\ events_since wk (snd (processRecommendation E auth (to_value light_workout) wk))
          = [creating_line light_workout; CalendarInsert auth p; created_line light_workout]
       /\ evs = (pre ++ [creating_line light_workout; CalendarInsert auth p;
                         created_line light_workout] ++ post)%list
       /\ List.length (outcomes pre) = 1
       /\ List.length (outcomes post) = 0
       /\ calendarId p = "primary"
       /\ summary (requestBody p) = VStr "Light workout"
       /\ dateTime (start (requestBody p)) = VStr "2024-01-01T07:00:00Z"
       /\ dateTime (end_ (requestBody p)) = VStr "2024-01-01T07:15:00Z"
       /\ createdBy (extendedProperties_private (requestBody p)) = "time-management-system"
       /\ priority (extendedProperties_private (requestBody p)) = VStr "HIGH"
       /\ timestamp (extendedProperties_private (requestBody p))
          = toISOString (Date_now E (clock_reads wk)).
Proof.
  apply (create_is_applied (run_with (Some "sk-1") "y" [] accepts) auth
           [move_dinner; light_workout] start_of_run 1 light_workout).
  - reflexivity.
  - reflexivity.
  - intros history a p. reflexivity.
Defined.

Lemma create_uses_fixed_time_zone_witness :
  let E := run_with (Some "sk-1") "y" [] (rejects "Book Club") in
  let elements := map to_value [light_workout; book_club] in
  let result := executeCalendarActions E auth {| recommendations := elements |}
                  start_of_run in
  let evs := events_since start_of_run (snd result) in
  let wk := world_at E auth elements (record (processing_line 2) start_of_run) 1 in
  Forall fixed_time_zone evs
  /\ exists pre post p last,
       trace wk = (trace start_of_run ++ pre)%list
       /\ events_since wk (snd (processRecommendation E auth (to_value book_club) wk))
          = [creating_line book_club; CalendarInsert auth p; last]
       /\ evs = (pre ++ [creating_line book_club; CalendarInsert auth p; last] ++ post)%list
       /\ List.length (outcomes pre) = 1
       /\ summary (requestBody p) = VStr "Book Club"
       /\ start (requestBody p)
          = {| dateTime := VStr "2024-01-07T15:00:00-08:00";
               timeZone := "America/Los_Angeles" |}
       /\ end_ (requestBody p)
          = {| dateTime := VStr "2024-01-07T17:00:00-08:00";
               timeZone := "America/Los_Angeles" |}.
Proof.
  apply (create_uses_fixed_time_zone
           (run_with (Some "sk-1") "y" [] (rejects "Book Club")) auth
           [light_workout; book_club] start_of_run 1 book_club).
  - reflexivity.
  - reflexivity.
Defined.

(** A start time with its own offset is sent unchanged, next to the fixed
    zone. *)
Example offset_is_kept_beside_the_fixed_zone :
  map (fun e => match e with
                | CalendarInsert _ p => Some (start (requestBody p))
                | _ => None
                end)
    (filter is_calendar_write
       (trace (snd (executeCalendarActions (run_with (Some "sk-1") "y" [] accepts) auth
                      {| recommendations := [to_value book_club] |} start_of_run))))
  = [Some {| dateTime := VStr "2024-01-07T15:00:00-08:00";
             timeZone := "America/Los_Angeles" |}].
Proof.
  vm_compute. reflexivity.
Qed.

Lemma snapshot_is_the_listing_witness :
  let E := with_policy block_policy (run_with (Some "sk-1") "n" [] accepts) in
  let asked := windowParams (clock 0) (clock 1) in
  let listed := [standup; standup_again] in
  let evs := events_since start_of_run (snd (main E start_of_run)) in
  exists snapshot,
    filter is_calendar_read evs = [CalendarList auth asked]
    /\ filter is_oracle_call evs
       = [OracleCall "sk-1"
            (oracleRequest (context block_policy snapshot (toISOString (clock 2))))]
    /\ map_throwing formatEvent listed = inr snapshot
    /\ List.length snapshot = List.length listed
    /\ forall k event, nth_error listed k = Some event ->
         nth_error snapshot k = Some (formatted event).
Proof.
  apply (snapshot_is_the_listing (P := platform)
           (with_policy block_policy (run_with (Some "sk-1") "n" [] accepts))
           start_of_run
           {| trace := [Console Log [AStr "Starting time management system..."];
                        Console Log [AStr "Strategy loaded"]];
              clock_reads := 0 |}
           block_policy block_policy auth (Some [standup; standup_again]) "sk-1").
  - reflexivity.
  - reflexivity.
  - vm_compute. reflexivity.
  - reflexivity.
  - repeat constructor.
  - reflexivity.
  - reflexivity.
Defined.

(** Against C9 as stated: the calendar read lists two events with the same
    title, start and end under two ids; both are handed to the builder, both
    become the same triple, and the request that the run sends to the oracle
    carries that triple twice. *)
Lemma duplicate_events_stay_in_the_snapshot :
  let E := with_policy block_policy (run_with (Some "sk-1") "n" [] accepts) in
  fst (getCalendarEvents E auth
         {| trace := [Console Log [AStr "Starting time management system..."];
                      Console Log [AStr "Strategy loaded"]];
            clock_reads := 0 |})
  = inr (Some [standup; standup_again])
  /\ formatEvent standup = inr standup_triple
  /\ formatEvent standup_again = inr standup_triple
  /\ yaml_stringify block_policy = block_policy
  /\ filter is_oracle_call (trace (snd (main E start_of_run)))
     = [OracleCall "sk-1"
          (oracleRequest
             (context block_policy [standup_triple; standup_triple]
                "2024-01-01T07:00:02.000Z"))].
Proof.
  repeat split; vm_compute; reflexivity.
Qed.

Lemma request_is_determined_by_inputs_witness :
  let E1 := run_with (Some "sk-1") "y" mixed_batch accepts in
  let E2 := run_with (Some "sk-1") "n" [] (rejects "Book Club") in
  fst (buildRequest E1 policy [standup] start_of_run)
  = fst (buildRequest E2 policy [standup] later)
  /\ filter is_oracle_call
       (events_since start_of_run
          (snd (getSchedulingSuggestions E1 policy [standup] (Some "sk-1") start_of_run)))
     = filter is_oracle_call
         (events_since later
            (snd (getSchedulingSuggestions E2 policy [standup] (Some "sk-1") later)))
  /\ events_since start_of_run (snd (buildRequest E1 policy [standup] start_of_run))
     = match fst (buildRequest E1 policy [standup] start_of_run) with
       | inr ctx => [Console Log [AStr ctx]]
       | inl _ => []
       end.
Proof.
  exact (request_is_determined_by_inputs
           (run_with (Some "sk-1") "y" mixed_batch accepts)
           (run_with (Some "sk-1") "n" [] (rejects "Book Club"))
           policy [standup] "sk-1" start_of_run later eq_refl).
Defined.

(** Against C8 as stated: building the request has an effect, the built
    text is printed on the console (and the clock is read). *)
Lemma building_the_request_prints_it :
  exists ctx,
    buildRequest (run_with (Some "sk-1") "y" [] accepts) policy [standup] start_of_run
    = (inr ctx, {| trace := [Console Log [AStr ctx]]; clock_reads := 1 |}).
Proof.
  eexists. vm_compute. reflexivity.
Qed.

Lemma missing_configuration_aborts_witness :
  let E := run_with None "y" mixed_batch accepts in
  let evs := events_since start_of_run (snd (main E start_of_run)) in
  (exists error, fst (mainBody E start_of_run) = inl error)
  /\ Forall no_oracle_no_write evs.
Proof.
  exact (missing_configuration_aborts (run_with None "y" mixed_batch accepts)
           start_of_run (or_intror eq_refl)).
Defined.

(** Against C7 as stated: with the oracle key missing the run does abort,
    but the calendar has been read by then. *)
Lemma calendar_is_read_before_the_key_is_checked :
  let E := run_with None "y" mixed_batch accepts in
  fst (mainBody E start_of_run)
  = inl (Error "ANTHROPIC_API_KEY not found in environment variables")
  /\ filter is_external_call (trace (snd (main E start_of_run)))
     = [CalendarList auth (windowParams (clock 0) (clock 1))].
Proof.
  split; vm_compute; reflexivity.
Qed.

End Runs.

(* ===================================================================== *)
(** ** The further theorems on the reference platform *)
(* ===================================================================== *)

Module MoreRuns.

Import Reference.
Import Example.

Lemma declined_run_writes_nothing_witness :
  Forall no_write
    (events_since start_of_run
       (snd (main (run_with (Some "sk-1") "n" mixed_batch accepts) start_of_run))).
Proof.
  exact (declined_run_writes_nothing (run_with (Some "sk-1") "n" mixed_batch accepts)
           start_of_run eq_refl).
Defined.

Lemma writes_follow_the_question_witness :
  In (Prompt confirmation_question) (firstn 13 confirmed_events).
Proof.
  apply (writes_follow_the_question
           (run_with (Some "sk-1") "Y" [to_value light_workout] accepts) start_of_run
           (firstn 13 confirmed_events) (skipn 14 confirmed_events)
           (nth 13 confirmed_events (Prompt ""))).
  - vm_compute. reflexivity.
  - vm_compute. reflexivity.
Defined.


Lemma unknown_action_type_is_warned_witness :
  processRecommendation (run_with (Some "sk-1") "y" [] accepts) auth lower_case_create
    start_of_run
  = (inr tt, record (Console Warn [AStr "Unknown action type: create"]) start_of_run).
Proof.
  apply (unknown_action_type_is_warned (run_with (Some "sk-1") "y" [] accepts) auth
           lower_case_create
           (VObj [("type", VStr "create"); ("details", VObj [("title", VStr "Walk")])])
           "create" start_of_run);
    first [ reflexivity | discriminate ].
Defined.

Lemma missing_parts_are_reported_witness :
  exists line,
    processRecommendation (run_with (Some "sk-1") "y" [] accepts) auth bare_element
      start_of_run
    = (inr tt,
       record (Console Err [AStr ("Failed to process recommendation: " ++ line);
                            AExn TypeError]) start_of_run).
Proof.
  apply (missing_parts_are_reported (run_with (Some "sk-1") "y" [] accepts) auth
           bare_element VUndefined start_of_run).
  - reflexivity.
  - reflexivity.
  - left. reflexivity.
Defined.

Lemma create_copies_fields_unchecked_witness :
  let E := run_with (Some "sk-1") "y" [] accepts in
  let p :=
    {| calendarId := "primary";
       requestBody :=
         {| summary := VStr "Walk";
            description := "undefined";
            start := {| dateTime := VStr "2024-01-04T18:00:00Z";
                        timeZone := "America/Los_Angeles" |};
            end_ := {| dateTime := VUndefined; timeZone := "America/Los_Angeles" |};
            extendedProperties_private :=
              {| createdBy := "time-management-system";
                 priority := VUndefined;
                 timestamp := "2024-01-01T07:00:00.000Z" |} |} |} in
  (VUndefined = VUndefined -> "undefined" = "undefined")
  /\ fst (dispatchAction E auth sparse_create start_of_run) = inr tt
  /\ events_since start_of_run (snd (dispatchAction E auth sparse_create start_of_run))
     = [Console Log [AStr "Creating event: Walk"]; CalendarInsert auth p;
        Console Log [AStr (created_mark ++ " Created: Walk")]].
Proof.
  exact (create_copies_fields_unchecked (run_with (Some "sk-1") "y" [] accepts) auth
           sparse_create
           (VObj [("type", VStr "CREATE");
                  ("details", VObj [("title", VStr "Walk");
                                    ("startTime", VStr "2024-01-04T18:00:00Z")])])
           (VObj [("title", VStr "Walk"); ("startTime", VStr "2024-01-04T18:00:00Z")])
           "Walk" "undefined" start_of_run
           eq_refl eq_refl eq_refl eq_refl eq_refl eq_refl).
Defined.

Lemma first_text_block_is_decoded_witness :
  let E := with_oracle (inr [TextBlock (reply_text mixed_batch); TextBlock "not read"])
             (run_with (Some "sk-1") "y" [] accepts) in
  let ctx := context policy [standup_triple] "2024-01-01T07:00:00.000Z" in
  fst (getSchedulingSuggestions E policy [standup] (Some "sk-1") start_of_run)
  = inr (VObj [("recommendations", VArr mixed_batch)])
  /\ events_since start_of_run
       (snd (getSchedulingSuggestions E policy [standup] (Some "sk-1") start_of_run))
     = [Console Log [AStr ctx]; OracleCall "sk-1" (oracleRequest ctx)].
Proof.
  refine (first_text_block_is_decoded
            (with_oracle (inr [TextBlock (reply_text mixed_batch); TextBlock "not read"])
               (run_with (Some "sk-1") "y" [] accepts))
            policy [standup] [standup_triple] "sk-1" (reply_text mixed_batch)
            [TextBlock "not read"] (VObj [("recommendations", VArr mixed_batch)])
            mixed_batch start_of_run _ eq_refl eq_refl _ eq_refl).
  - discriminate.
  - vm_compute. reflexivity.
Defined.


Lemma stored_token_is_used_silently_witness :
  let E := run_with (Some "sk-1") "y" [] accepts in
  trace (snd (getAuthenticatedClient E later)) = trace later
  /\ (JSON_parse token_text = None ->
      exists error, fst (getAuthenticatedClient E later) = inl error).
Proof.
  exact (stored_token_is_used_silently (run_with (Some "sk-1") "y" [] accepts)
           token_text later eq_refl).
Defined.

Lemma first_authorization_stores_the_token_witness :
  let E := without_token (run_with (Some "sk-1") "y" [] accepts) in
  let asked :=
    [Console Log [AStr "Authorize this app by visiting this url:";
                  AStr (generateAuthUrl fresh_client)];
     Prompt "Enter the code from that page here: "] in
  let result := getAuthenticatedClient E start_of_run in
  fst result = inr auth
  /\ events_since start_of_run (snd result)
     = (asked ++ [TokenRequest fresh_client "4/code";
                  FileWrite "token.json" (JSON_stringify (credentials auth))])%list.
Proof.
  exact (first_authorization_stores_the_token
           (without_token (run_with (Some "sk-1") "y" [] accepts))
           credentials_text (VObj [("installed", installed_client)]) installed_client
           (VStr "client-1") (VStr "secret-1") (VArr [VStr "http://localhost"])
           (VStr "http://localhost") start_of_run
           eq_refl eq_refl eq_refl eq_refl eq_refl eq_refl eq_refl eq_refl).
Defined.

Lemma unreadable_policy_stops_the_run_witness :
  let E := without_policy (run_with (Some "sk-1") "y" mixed_batch accepts) in
  fst (main E start_of_run) = inr tt
  /\ events_since start_of_run (snd (main E start_of_run))
     = [Console Log [AStr "Starting time management system..."];
        Console Err [AStr "Error:"; AExn (Fault "ENOENT")]].
Proof.
  exact (unreadable_policy_stops_the_run
           (without_policy (run_with (Some "sk-1") "y" mixed_batch accepts))
           (Fault "ENOENT") start_of_run eq_refl).
Defined.

End MoreRuns.
